(** * The real-time core of the auction server (server/index.js)

    A shallow embedding of the room registry ([joinRoom], [leaveRoom],
    [broadcastToAuction]), the time-sync and bid endpoints, the WebSocket
    message handler and the expiry sweeper, followed by the properties of
    the design document checked against them.

    Conventions of the embedding:
    - a JavaScript number is a [num]: an exact rational, an infinity or NaN
      (rounding of doubles is not modelled; the program only compares and
      copies numbers, it never computes with them);
    - instants ([Date] values and ISO time stamps) are integers, the
      milliseconds since the epoch; a DATETIME of the store is a reading of
      the wall clock, counted in whole seconds on the calendar: it names no
      instant by itself. [formatDateTime] turns an instant into the local
      reading and the driver turns a stored reading back into an instant,
      both through the time zone of the process ([LocalTZA]);
    - the [auctions] table is a list of rows; the column
      [current_price DECIMAL(10,2)] keeps an amount rounded to two places
      ([decimal_10_2]); a query either succeeds or throws (the [bool] given
      to each query says which), and a server in strict mode that refuses
      an amount beyond the range of the column is a query that throws;
    - a handler runs from one [await] to the next without interruption;
      [bid_step] is the bid handler cut at its [await]s, [bid_handler] the
      same code run in one piece;
    - the language built-ins that read a string, and the time zone, are not
      part of the program: [Number] on a string and the offset of local time
      are the fields of the class [Builtins], over which every definition
      and theorem is generic, and the [Date] parser is an argument of the
      time-sync handler. *)

From Stdlib Require Import ZArith QArith Qround Lqa List String Bool Lia DecimalString.
Import ListNotations.
Local Open Scope string_scope.
Local Open Scope list_scope.
Set Warnings "-register-all".

(** ** JavaScript numbers *)

Inductive num : Type :=
| Fin (q : Q)
| PInf
| NInf
| NaN.

Definition num_of_Z (z : Z) : num := Fin (inject_Z z).

(** [a < b]; every comparison with NaN is false. *)
Definition num_ltb (a b : num) : bool :=
  match a, b with
  | NaN, _ | _, NaN => false
  | Fin x, Fin y => negb (Qle_bool y x)
  | Fin _, PInf => true
  | Fin _, NInf => false
  | PInf, _ => false
  | NInf, NInf => false
  | NInf, _ => true
  end.

(** [a <= b]. *)
Definition num_leb (a b : num) : bool :=
  match a, b with
  | NaN, _ | _, NaN => false
  | Fin x, Fin y => Qle_bool x y
  | Fin _, PInf => true
  | Fin _, NInf => false
  | PInf, PInf => true
  | PInf, _ => false
  | NInf, _ => true
  end.

(** ToBoolean on a number: [!id] is [negb (truthy_num id)]. *)
Definition truthy_num (n : num) : bool :=
  match n with
  | Fin q => negb (Qeq_bool q 0)
  | PInf | NInf => true
  | NaN => false
  end.

(** SameValueZero, the key equality of [Map] and [Set]. *)
Definition same_value_zero (a b : num) : bool :=
  match a, b with
  | Fin x, Fin y => Qeq_bool x y
  | PInf, PInf | NInf, NInf | NaN, NaN => true
  | _, _ => false
  end.

(** ** JavaScript values as [JSON.parse] and Express deliver them *)

Inductive jsval : Type :=
| JUndefined
| JNull
| JBool (b : bool)
| JNum (n : num)
| JStr (s : string)
| JArr (items : list jsval)
| JObj (fields : list (string * jsval)).

Inductive jstype : Type := TUndefined | TObject | TBoolean | TNumber | TString.

Definition typeof (v : jsval) : jstype :=
  match v with
  | JUndefined => TUndefined
  | JNull | JArr _ | JObj _ => TObject
  | JBool _ => TBoolean
  | JNum _ => TNumber
  | JStr _ => TString
  end.

Definition jstype_eqb (a b : jstype) : bool :=
  match a, b with
  | TUndefined, TUndefined | TObject, TObject | TBoolean, TBoolean
  | TNumber, TNumber | TString, TString => true
  | _, _ => false
  end.

Definition truthy (v : jsval) : bool :=
  match v with
  | JUndefined | JNull => false
  | JBool b => b
  | JNum n => truthy_num n
  | JStr s => negb (String.eqb s "")
  | JArr _ | JObj _ => true
  end.

Fixpoint assoc {A : Type} (k : string) (l : list (string * A)) : option A :=
  match l with
  | [] => None
  | (k', v) :: l' => if String.eqb k' k then Some v else assoc k l'
  end.

(** [v.k] for the property names the server reads ([clientTime], [amount],
    [userId], [type], [payload], [auctionId]): only an object has them. *)
Definition prop (v : jsval) (k : string) : jsval :=
  match v with
  | JObj fields => match assoc k fields with Some x => x | None => JUndefined end
  | _ => JUndefined
  end.

(** [v || {}]. *)
Definition or_empty (v : jsval) : jsval := if truthy v then v else JObj [].

(** [v === "lit"]. *)
Definition is_string (v : jsval) (lit : string) : bool :=
  match v with
  | JStr s => String.eqb s lit
  | _ => false
  end.

(** ** The persisted auction record *)

Inductive status : Type := pending | running | ended.

Definition status_eqb (a b : status) : bool :=
  match a, b with
  | pending, pending | running, running | ended, ended => true
  | _, _ => false
  end.

(** A row of the [auctions] table: [id INT PRIMARY KEY], two [DATETIME]s
    (readings of the wall clock, in seconds), [current_price DECIMAL(10,2)
    NOT NULL] and the status enumeration. *)
Record row : Type := {
  id : Z;
  name : string;
  start_time : Z;
  end_time : Z;
  current_price : Q;
  row_status : status
}.

(** ** Connections, messages and the state of the server *)

Definition conn : Type := nat.

Inductive ready_state : Type := CONNECTING | OPEN | CLOSING | CLOSED.

Definition is_open (r : ready_state) : bool :=
  match r with OPEN => true | _ => false end.

(** The two fields of a [ws] object the server reads; [_auctionId] is [None]
    while it is [undefined] or [null]. *)
Record wsobj : Type := {
  _auctionId : option num;
  readyState : ready_state
}.

(** The outbound events; [serverTime] is the instant of [new Date()]. *)
Inductive message : Type :=
| auctionData (auction : row) (serverTime : Z)
| bidUpdate (auctionId : num) (newPrice : num) (userId : jsval) (serverTime : Z)
| auctionEnded (auctionId : num) (serverTime : Z).

(** An [UPDATE auctions SET ... WHERE id = ?] that the store has executed,
    with the value it stored. *)
Inductive store_write : Type :=
| SetPrice (auction : num) (price : Q)
| SetStatus (auction : Z) (st : status).

(** [rooms] is the [Map] from auction id to [Set] of connections, both in
    insertion order; [sent] lists the [send] calls, oldest first. The last two
    fields are instrumentation: every call of [broadcastToAuction] and every
    executed [UPDATE], oldest first. *)
Record server : Type := {
  db : list row;
  rooms : list (num * list conn);
  sockets : conn -> wsobj;
  sent : list (conn * message);
  published : list message;
  store_log : list store_write
}.

Definition with_db (d : list row) (s : server) : server :=
  {| db := d; rooms := rooms s; sockets := sockets s; sent := sent s;
     published := published s; store_log := store_log s |}.

Definition with_rooms (r : list (num * list conn)) (s : server) : server :=
  {| db := db s; rooms := r; sockets := sockets s; sent := sent s;
     published := published s; store_log := store_log s |}.

Definition with_sockets (f : conn -> wsobj) (s : server) : server :=
  {| db := db s; rooms := rooms s; sockets := f; sent := sent s;
     published := published s; store_log := store_log s |}.

Definition with_sent (l : list (conn * message)) (s : server) : server :=
  {| db := db s; rooms := rooms s; sockets := sockets s; sent := l;
     published := published s; store_log := store_log s |}.

Definition with_published (l : list message) (s : server) : server :=
  {| db := db s; rooms := rooms s; sockets := sockets s; sent := sent s;
     published := l; store_log := store_log s |}.

Definition with_store_log (l : list store_write) (s : server) : server :=
  {| db := db s; rooms := rooms s; sockets := sockets s; sent := sent s;
     published := published s; store_log := l |}.

(** [ws._auctionId = v]. *)
Definition set_auctionId (ws : conn) (v : option num) (s : server) : server :=
  with_sockets
    (fun c => if Nat.eqb c ws
              then {| _auctionId := v; readyState := readyState (sockets s c) |}
              else sockets s c) s.

(** ** [Map] and [Set] operations *)

Fixpoint Map_get (k : num) (m : list (num * list conn)) : option (list conn) :=
  match m with
  | [] => None
  | (k', v) :: m' => if same_value_zero k' k then Some v else Map_get k m'
  end.

Definition Map_has (k : num) (m : list (num * list conn)) : bool :=
  match Map_get k m with Some _ => true | None => false end.

Fixpoint Map_set (k : num) (v : list conn) (m : list (num * list conn))
  : list (num * list conn) :=
  match m with
  | [] => [(k, v)]
  | (k', v') :: m' =>
      if same_value_zero k' k then (k', v) :: m' else (k', v') :: Map_set k v m'
  end.

Fixpoint Map_delete (k : num) (m : list (num * list conn)) : list (num * list conn) :=
  match m with
  | [] => []
  | (k', v') :: m' =>
      if same_value_zero k' k then m' else (k', v') :: Map_delete k m'
  end.

Definition Set_has (c : conn) (l : list conn) : bool := existsb (Nat.eqb c) l.

Definition Set_add (c : conn) (l : list conn) : list conn :=
  if Set_has c l then l else l ++ [c].

Definition Set_delete (c : conn) (l : list conn) : list conn :=
  filter (fun c' => negb (Nat.eqb c' c)) l.

(** ECMAScript's StringToNumber, which [Number] applies to a string, and
    its LocalTZA: the offset of local time from UTC, in milliseconds, in
    force at the instant [t] ([isUTC = true]) or when the wall clock reads
    [t] ([isUTC = false]). *)
Class Builtins : Type := {
  StringToNumber : string -> num;
  LocalTZA : Z -> bool -> Z
}.

Section Server.

Context {js : Builtins}.

(** [Number(v)]. An array converts through its string form: empty and
    one-element arrays read as their content does, longer ones hold a comma
    and are NaN; an object prints as [[object Object]], NaN. *)
Fixpoint Number (v : jsval) : num :=
  match v with
  | JUndefined => NaN
  | JNull => num_of_Z 0
  | JBool b => if b then num_of_Z 1 else num_of_Z 0
  | JNum n => n
  | JStr s => StringToNumber s
  | JArr [] => num_of_Z 0
  | JArr [x] =>
      match x with
      | JUndefined | JNull => num_of_Z 0
      | JBool _ | JObj _ => NaN
      | _ => Number x
      end
  | JArr _ => NaN
  | JObj _ => NaN
  end.

(** ECMAScript's LocalTime and UTC: from an instant to the reading of the
    wall clock, and back. *)
Definition LocalTime (t : Z) : Z := (t + LocalTZA t true)%Z.

Definition UTC (t : Z) : Z := (t - LocalTZA t false)%Z.

(** ** The room registry (index.js, lines 78 to 115) *)

Definition joinRoom (ws : conn) (auctionId : jsval) (s : server) : server :=
  let id := Number auctionId in
  if negb (truthy_num id) then s
  else
    let rooms1 := if Map_has id (rooms s) then rooms s else Map_set id [] (rooms s) in
    let rooms2 :=
      match Map_get id rooms1 with
      | Some set => Map_set id (Set_add ws set) rooms1
      | None => rooms1
      end in
    set_auctionId ws (Some id) (with_rooms rooms2 s).

Definition leaveRoom (ws : conn) (s : server) : server :=
  match _auctionId (sockets s ws) with
  | None => s
  | Some id =>
      if negb (truthy_num id) then s
      else
        let rooms1 :=
          match Map_get id (rooms s) with
          | Some set =>
              let set1 := Set_delete ws set in
              if Nat.eqb (List.length set1) 0
              then Map_delete id (rooms s)
              else Map_set id set1 (rooms s)
          | None => rooms s
          end in
        set_auctionId ws None (with_rooms rooms1 s)
  end.

(** The [for (const client of set)] loop: one [send] per open member. *)
Definition deliver (payload : message) (s : server) (set : list conn)
  : list (conn * message) :=
  map (fun c => (c, payload))
      (filter (fun c => is_open (readyState (sockets s c))) set).

Definition broadcastToAuction (auctionId : jsval) (payload : message) (s : server)
  : server :=
  let s := with_published (published s ++ [payload]) s in
  let id := Number auctionId in
  if negb (truthy_num id) then s
  else
    match Map_get id (rooms s) with
    | None => s
    | Some set => with_sent (sent s ++ deliver payload s set) s
    end.

(** ** POST /api/time-sync (lines 143 to 156) *)

Inductive time_sync_response : Type :=
| time_sync_400                                   (* "请提供 clientTime" *)
| time_sync_200 (serverTime : Z) (clientTime : num).

Section TimeSync.

(** [new Date(s).getTime()] on a string: its instant, NaN when unreadable. *)
Variable DateParse : string -> num.

Definition time_sync (now : Z) (body : jsval) : time_sync_response :=
  let clientTime := prop (or_empty body) "clientTime" in
  if negb (jstype_eqb (typeof clientTime) TNumber)
     && negb (jstype_eqb (typeof clientTime) TString)
  then time_sync_400
  else
    let serverTime := now in
    time_sync_200 serverTime
      (match clientTime with
       | JNum n => n
       | JStr s => DateParse s
       | _ => NaN
       end).

End TimeSync.

(** ** The persistent store: the three statements the core issues

    Each takes [up], whether the store executes the statement; a number
    that is not finite has no SQL literal, so a statement given one is
    rejected. A rejected or unanswered statement makes [pool.query] throw:
    [None]. *)

(** The column [current_price DECIMAL(10,2)]. A value written to it is
    rounded to two places, half away from zero; [cents] is the rounded
    value in hundredths. The column holds ten digits: a server that is not
    in strict mode stores a value beyond that as the nearest end of the
    range, and a server in strict mode refuses the statement ([up = false]
    below). What is read back is the stored value ([150.00] reads 150). *)
Definition cents (a : Q) : Z :=
  if Qle_bool 0 a
  then Qfloor (100 * a + (1 # 2))
  else (- Qfloor (100 * - a + (1 # 2)))%Z.

Definition max_cents : Z := 9999999999.

Definition decimal_10_2 (a : Q) : Q :=
  Qred (Qmake (Z.max (- max_cents) (Z.min max_cents (cents a))) 100).

(** A DATETIME column arrives in a row as a [Date]: the driver takes the
    stored reading as local time, which is the default of the pool (no
    [timezone] option is set), and [new Date(auction.start_time)] copies
    the [Date] it is given. [Date_of_DATETIME] is the instant of that
    [Date]. *)
Definition Date_of_DATETIME (w : Z) : Z := UTC (1000 * w).

Definition id_matches (q : Q) (r : row) : bool := Qeq_bool (inject_Z (id r)) q.

(** [SELECT * FROM auctions WHERE id = ? LIMIT 1]. *)
Definition select_by_id (up : bool) (n : num) (d : list row) : option (list row) :=
  if up then
    match n with
    | Fin q => Some (firstn 1 (filter (id_matches q) d))
    | _ => None
    end
  else None.

Definition set_price (a : Q) (r : row) : row :=
  {| id := id r; name := name r; start_time := start_time r;
     end_time := end_time r; current_price := a; row_status := running |}.

Definition set_status (st : status) (r : row) : row :=
  {| id := id r; name := name r; start_time := start_time r;
     end_time := end_time r; current_price := current_price r; row_status := st |}.

(** [UPDATE auctions SET current_price = ?, status = 'running' WHERE id = ?]. *)
Definition update_price (up : bool) (n amount : num) (s : server) : option server :=
  if up then
    match n, amount with
    | Fin q, Fin a =>
        let stored := decimal_10_2 a in
        Some (with_store_log (store_log s ++ [SetPrice n stored])
                (with_db (map (fun r => if id_matches q r then set_price stored r else r)
                              (db s)) s))
    | _, _ => None
    end
  else None.

(** [UPDATE auctions SET status = 'ended' WHERE id = ?], given a row's id. *)
Definition update_ended (up : bool) (i : Z) (s : server) : option server :=
  if up then
    Some (with_store_log (store_log s ++ [SetStatus i ended])
            (with_db (map (fun r => if Z.eqb (id r) i then set_status ended r else r)
                          (db s)) s))
  else None.

(** [SELECT * FROM auctions WHERE status != 'ended' AND end_time <= ?]: the
    store compares the stored reading with the reading it is given. *)
Definition select_expired (up : bool) (nowStr : Z) (d : list row) : option (list row) :=
  if up then
    Some (filter (fun r => negb (status_eqb (row_status r) ended)
                           && Z.leb (end_time r) nowStr) d)
  else None.

(** ** POST /api/auctions/:id/bid (lines 183 to 240) *)

(** The failures of the design document, by the reply that carries each:
    400 "参数错误或金额无效", 404 "拍卖不存在", 400 "拍卖尚未开始",
    400 "拍卖已结束", 400 "出价必须高于当前价格", 500 "出价失败". *)
Inductive failure : Type :=
| InvalidInput
| NotFound
| NotStarted
| Closed
| PriceTooLow
| StoreUnavailable.

Inductive bid_response : Type :=
| Rejected (f : failure)
| Accepted (payload : message).          (* 200 "出价成功" with the payload *)

Record bid_request : Type := {
  params_id : string;
  body : jsval
}.

(** Lines 184 to 188: the request is read and screened before any query. *)
Definition bid_parse (req : bid_request) : option (num * num * jsval) :=
  let id := Number (JStr (params_id req)) in
  let amount := prop (or_empty (body req)) "amount" in
  let userId := prop (or_empty (body req)) "userId" in
  match amount with
  | JNum a =>
      if negb (truthy_num id) || num_leb a (num_of_Z 0) then None
      else Some (id, a, userId)
  | _ => None
  end.

(** Lines 195 to 211: the checks on the row that the SELECT returned; the
    clock is compared with the two stored times as instants. *)
Definition bid_check (now : Z) (amount : num) (rows : list row) : failure + row :=
  match rows with
  | [] => inl NotFound
  | auction :: _ =>
      let startTime := Date_of_DATETIME (start_time auction) in
      let endTime := Date_of_DATETIME (end_time auction) in
      if Z.ltb now startTime then inl NotStarted
      else if Z.gtb now endTime || status_eqb (row_status auction) ended
      then inl Closed
      else
        let currentPrice := Fin (current_price auction) in
        if num_leb amount currentPrice then inl PriceTooLow
        else inr auction
  end.

(** Lines 213 to 235: the UPDATE, then the payload, the broadcast and the
    reply; [now'] is the second [new Date()]. *)
Definition bid_commit (id amount : num) (userId : jsval) (now' : Z) (up : bool)
    (s : server) : bid_response * server :=
  match update_price up id amount s with
  | None => (Rejected StoreUnavailable, s)
  | Some s1 =>
      let payload :=
        bidUpdate id amount (if truthy userId then userId else JStr "anonymous") now' in
      (Accepted payload, broadcastToAuction (JNum id) payload s1)
  end.

(** The handler run from its first line to its reply with nothing else in
    between: [now] is the clock at line 189, [select_up] and [update_up] say
    whether the two queries are answered. *)
Definition bid_handler (req : bid_request) (now now' : Z) (select_up update_up : bool)
    (s : server) : bid_response * server :=
  match bid_parse req with
  | None => (Rejected InvalidInput, s)
  | Some (id, amount, userId) =>
      match select_by_id select_up id (db s) with
      | None => (Rejected StoreUnavailable, s)
      | Some rows =>
          match bid_check now amount rows with
          | inl f => (Rejected f, s)
          | inr _ => bid_commit id amount userId now' update_up s
          end
      end
  end.

(** *** The handler between its [await]s

    The handler gives up control at each [await pool.query]; other requests
    run in between. A request in flight is a [bid_task]; [bid_step] runs it
    up to its next [await] (the query it was waiting for is executed at the
    start of the step). *)
Inductive bid_task : Type :=
| Arrived (req : bid_request)
| Selecting (now : Z) (id amount : num) (userId : jsval)
| Updating (id amount : num) (userId : jsval)
| Replied (r : bid_response).

Definition bid_step (t : Z) (up : bool) (k : bid_task) (s : server)
  : bid_task * server :=
  match k with
  | Arrived req =>
      match bid_parse req with
      | None => (Replied (Rejected InvalidInput), s)
      | Some (id, amount, userId) => (Selecting t id amount userId, s)
      end
  | Selecting now id amount userId =>
      match select_by_id up id (db s) with
      | None => (Replied (Rejected StoreUnavailable), s)
      | Some rows =>
          match bid_check now amount rows with
          | inl f => (Replied (Rejected f), s)
          | inr _ => (Updating id amount userId, s)
          end
      end
  | Updating id amount userId =>
      let (r, s1) := bid_commit id amount userId t up s in (Replied r, s1)
  | Replied _ => (k, s)
  end.

(** One scheduling decision: task [who] runs its next step at time [at_time]. *)
Record event : Type := {
  who : nat;
  at_time : Z;
  store_up : bool
}.

Fixpoint replace_nth {A : Type} (n : nat) (x : A) (l : list A) : list A :=
  match l, n with
  | [], _ => []
  | _ :: l', O => x :: l'
  | y :: l', S n' => y :: replace_nth n' x l'
  end.

Definition run_event (st : list bid_task * server) (e : event)
  : list bid_task * server :=
  match nth_error (fst st) (who e) with
  | None => st
  | Some k =>
      let (k1, s1) := bid_step (at_time e) (store_up e) k (snd st) in
      (replace_nth (who e) k1 (fst st), s1)
  end.

Definition run_events (es : list event) (st : list bid_task * server)
  : list bid_task * server :=
  fold_left run_event es st.

(** A call of the handler that nothing interleaves with, and a sequence of
    such calls one after another. *)
Record bid_call : Type := {
  call_req : bid_request;
  call_now : Z;
  call_now' : Z;
  call_select_up : bool;
  call_update_up : bool
}.

Definition run_call (s : server) (c : bid_call) : server :=
  snd (bid_handler (call_req c) (call_now c) (call_now' c)
         (call_select_up c) (call_update_up c) s).

Definition run_calls (cs : list bid_call) (s : server) : server :=
  fold_left run_call cs s.

(** ** The WebSocket handlers (lines 243 to 293) *)

(** [ws.on("message")]; [parsed] is [None] when [JSON.parse] throws. *)
Definition on_message (ws : conn) (parsed : option jsval) (now : Z) (select_up : bool)
    (s : server) : server :=
  match parsed with
  | None => s
  | Some data =>
      let type := prop (or_empty data) "type" in
      let payload := prop (or_empty data) "payload" in
      if is_string type "joinAuction" then
        let auctionId := prop (or_empty payload) "auctionId" in
        let id := Number auctionId in
        if negb (truthy_num id) then s
        else
          let s1 := joinRoom ws (JNum id) s in
          match select_by_id select_up id (db s1) with
          | None => s1
          | Some rows =>
              match rows with
              | r :: _ =>
                  if is_open (readyState (sockets s1 ws))
                  then with_sent (sent s1 ++ [(ws, auctionData r now)]) s1
                  else s1
              | [] => s1
              end
          end
      else s
  end.

(** [ws.on("close")]. *)
Definition on_close (ws : conn) (s : server) : server := leaveRoom ws s.

(** ** The expiry sweeper (lines 296 to 323) *)

(** [formatDateTime] prints the local year, month, day, hour, minute and
    second of an instant; the result is the DATETIME the store reads from
    that text, the wall clock at the instant to the second. (The text itself
    is [formatDateTime_text] below.) *)
Definition formatDateTime (d : Z) : Z := (LocalTime d / 1000)%Z.

(** The [for (const auction of rows)] loop; [stamp i] is the clock read for
    the payload of auction [i], and a throwing UPDATE ends the loop. *)
Fixpoint sweep_rows (rows : list row) (update_up : Z -> bool) (stamp : Z -> Z)
    (s : server) : server :=
  match rows with
  | [] => s
  | auction :: rest =>
      match update_ended (update_up (id auction)) (id auction) s with
      | None => s
      | Some s1 =>
          let s2 :=
            broadcastToAuction (JNum (num_of_Z (id auction)))
              (auctionEnded (num_of_Z (id auction)) (stamp (id auction))) s1 in
          sweep_rows rest update_up stamp s2
      end
  end.

(** One tick of the [setInterval] callback, run without interruption. *)
Definition sweep (now : Z) (select_up : bool) (update_up : Z -> bool) (stamp : Z -> Z)
    (s : server) : server :=
  let nowStr := formatDateTime now in
  match select_expired select_up nowStr (db s) with
  | None => s
  | Some rows => sweep_rows rows update_up stamp s
  end.

(** *** The tick between its [await]s

    The callback gives up control at its SELECT and at each UPDATE, and
    [setInterval] fires the next tick whether or not the last one has
    finished. A tick in flight is a [sweep_task]; [sweep_step] runs it up to
    its next [await] (the query it was waiting for is executed at the start
    of the step, and the broadcast follows its UPDATE in the same step). *)
Inductive sweep_task : Type :=
| Fired
| Expiring (nowStr : Z)
| Ending (rows : list row)
| Finished.

Definition sweep_step (t : Z) (up : bool) (k : sweep_task) (s : server)
  : sweep_task * server :=
  match k with
  | Fired => (Expiring (formatDateTime t), s)
  | Expiring nowStr =>
      match select_expired up nowStr (db s) with
      | None => (Finished, s)
      | Some [] => (Finished, s)
      | Some rows => (Ending rows, s)
      end
  | Ending [] => (Finished, s)
  | Ending (auction :: rest) =>
      match update_ended up (id auction) s with
      | None => (Finished, s)
      | Some s1 =>
          let s2 :=
            broadcastToAuction (JNum (num_of_Z (id auction)))
              (auctionEnded (num_of_Z (id auction)) t) s1 in
          (match rest with [] => Finished | _ => Ending rest end, s2)
      end
  | Finished => (k, s)
  end.

Definition run_tick_event (st : list sweep_task * server) (e : event)
  : list sweep_task * server :=
  match nth_error (fst st) (who e) with
  | None => st
  | Some k =>
      let (k1, s1) := sweep_step (at_time e) (store_up e) k (snd st) in
      (replace_nth (who e) k1 (fst st), s1)
  end.

Definition run_tick_events (es : list event) (st : list sweep_task * server)
  : list sweep_task * server :=
  fold_left run_tick_event es st.

End Server.

(** ** The order of the bid checks, as lists

    A list of checks, each with the failure it stands for, fails with the
    failure of its first check that does not hold. *)

Definition first_failure (checks : list (bool * failure)) : option failure :=
  match find (fun c => negb (fst c)) checks with
  | Some c => Some (snd c)
  | None => None
  end.

Definition is_nil {A : Type} (l : list A) : bool :=
  match l with [] => true | _ => false end.

(** The row an id resolves to, if any. *)
Definition resolved (n : num) (d : list row) : list row :=
  match n with
  | Fin q => firstn 1 (filter (id_matches q) d)
  | _ => []
  end.

Definition is_finite (n : num) : bool :=
  match n with Fin _ => true | _ => false end.

Definition amount_of (v : jsval) : num :=
  match v with JNum a => a | _ => NaN end.

Section Orders.

Context {js : Builtins}.

(** The order in the words of the design document (section 4.3): existence,
    then a positive finite amount, then the start, the end and the price. *)
Definition checks_of_design (req : bid_request) (now : Z) (d : list row)
  : list (bool * failure) :=
  let auctionId := Number (JStr (params_id req)) in
  let amount := prop (or_empty (body req)) "amount" in
  let found := resolved auctionId d in
  [ (negb (is_nil found), NotFound);
    (match amount with JNum (Fin q) => negb (Qle_bool q 0) | _ => false end,
     InvalidInput);
    (forallb (fun a => Z.leb (Date_of_DATETIME (start_time a)) now) found, NotStarted);
    (forallb (fun a => Z.leb now (Date_of_DATETIME (end_time a))
                       && negb (status_eqb (row_status a) ended)) found, Closed);
    (forallb (fun a => num_ltb (Fin (current_price a)) (amount_of amount)) found,
     PriceTooLow) ].

(** The order of the handler: the request is screened first (a non-zero id
    and an amount that is a number and not [<= 0]), then the row is read, and
    the two queries can fail. *)
Definition checks_of_handler (req : bid_request) (now : Z)
    (select_up update_up : bool) (d : list row) : list (bool * failure) :=
  let id := Number (JStr (params_id req)) in
  let amount := prop (or_empty (body req)) "amount" in
  let found := resolved id d in
  [ (truthy_num id
     && match amount with JNum a => negb (num_leb a (num_of_Z 0)) | _ => false end,
     InvalidInput);
    (select_up && is_finite id, StoreUnavailable);
    (negb (is_nil found), NotFound);
    (forallb (fun a => Z.leb (Date_of_DATETIME (start_time a)) now) found, NotStarted);
    (forallb (fun a => Z.leb now (Date_of_DATETIME (end_time a))
                       && negb (status_eqb (row_status a) ended)) found, Closed);
    (forallb (fun a => negb (num_leb (amount_of amount) (Fin (current_price a)))) found,
     PriceTooLow);
    (update_up && is_finite (amount_of amount), StoreUnavailable) ].

(** The payload of a bid that passes every check. *)
Definition payload_of (req : bid_request) (now' : Z) : message :=
  let userId := prop (or_empty (body req)) "userId" in
  bidUpdate (Number (JStr (params_id req)))
    (amount_of (prop (or_empty (body req)) "amount"))
    (if truthy userId then userId else JStr "anonymous") now'.

End Orders.

(** ** Readings of the state used in the statements *)

(** The persisted price of auction [i]. *)
Definition price_of (i : Z) (d : list row) : option Q :=
  match find (fun r => Z.eqb (id r) i) d with
  | Some r => Some (current_price r)
  | None => None
  end.

Definition status_of (i : Z) (d : list row) : option status :=
  match find (fun r => Z.eqb (id r) i) d with
  | Some r => Some (row_status r)
  | None => None
  end.

(** The [newPrice] values of the [bidUpdate] events for auction [i], in the
    order of their broadcast. *)
Fixpoint new_prices (i : Z) (l : list message) : list num :=
  match l with
  | [] => []
  | bidUpdate a p _ _ :: l' =>
      if same_value_zero a (num_of_Z i) then p :: new_prices i l' else new_prices i l'
  | _ :: l' => new_prices i l'
  end.

Fixpoint strictly_increasing (l : list num) : Prop :=
  match l with
  | [] => True
  | x :: l' =>
      match l' with
      | [] => True
      | y :: _ => num_ltb x y = true /\ strictly_increasing l'
      end
  end.

(** How often auction [i] was moved to [ended], and how often its end was
    broadcast. *)
Definition ended_writes (i : Z) (l : list store_write) : nat :=
  List.length (filter (fun w => match w with
                                | SetStatus j ended => Z.eqb j i
                                | _ => false
                                end) l).

Definition ended_events (i : Z) (l : list message) : nat :=
  List.length (filter (fun m => match m with
                                | auctionEnded a _ => same_value_zero a (num_of_Z i)
                                | _ => false
                                end) l).

(** [stored] is what the price column holds after a positive amount [a]
    is written to it: the nearest hundredth, a tie going up, and
    99999999.99 when that is beyond the column. *)
Definition stored_as (a stored : Q) : Prop :=
  exists c : Z,
    (inject_Z c - (1 # 2) <= 100 * a /\ 100 * a < inject_Z c + (1 # 2))%Q
    /\ (stored == Qmake (Z.min 9999999999 c) 100)%Q.

(** The row [r] after [UPDATE ... SET current_price = stored, status =
    'running' WHERE id = q]: a row with that id has the new price and
    status and keeps its other columns, any other row is as it was. *)
Definition written_row (q stored : Q) (r r' : row) : Prop :=
  ((inject_Z (id r) == q)%Q ->
   r' = {| id := id r; name := name r; start_time := start_time r;
           end_time := end_time r; current_price := stored;
           row_status := running |})
  /\ (~ (inject_Z (id r) == q)%Q -> r' = r).

(** How often the end of auction [i] was sent to connection [c]. *)
Definition ended_frames (c : conn) (i : Z) (l : list (conn * message)) : nat :=
  List.length
    (filter (fun f => Nat.eqb (fst f) c
                      && match snd f with
                         | auctionEnded a _ => same_value_zero a (num_of_Z i)
                         | _ => false
                         end) l).

(** The rooms a connection is a member of. *)
Definition rooms_of (c : conn) (m : list (num * list conn)) : list num :=
  map fst (filter (fun kv => Set_has c (snd kv)) m).




(** A join or a leave of the registry, and a sequence of them. *)
Inductive registry_op : Type :=
| Join (ws : conn) (auctionId : jsval)
| Leave (ws : conn).

Definition run_op {js : Builtins} (s : server) (o : registry_op) : server :=
  match o with
  | Join ws auctionId => joinRoom ws auctionId s
  | Leave ws => leaveRoom ws s
  end.

Definition no_empty_room (m : list (num * list conn)) : Prop :=
  Forall (fun kv => snd kv <> []) m.

(** ** Concrete inputs for the examples

    [read_digits] is StringToNumber on the strings the examples use: the
    empty string is 0 and a run of decimal digits is the number it spells,
    as in ECMAScript. The other literal forms (sign, fraction, exponent,
    hexadecimal, white space) are not read by it and come out as NaN. *)

Fixpoint digits_value (s : string) (acc : Z) : option Z :=
  match s with
  | EmptyString => Some acc
  | String c s' =>
      let n := Ascii.nat_of_ascii c in
      if Nat.leb 48 n && Nat.leb n 57
      then digits_value s' (10 * acc + Z.of_nat (n - 48))%Z
      else None
  end.

Definition read_digits (s : string) : num :=
  match digits_value s 0%Z with
  | Some z => num_of_Z z
  | None => NaN
  end.

(** The process of the examples runs in UTC. *)
Definition digits_only : Builtins :=
  {| StringToNumber := read_digits; LocalTZA := fun _ _ => 0%Z |}.

(** A process in a zone whose clocks go back an hour at the instant
    7200000: local time is an hour ahead of UTC before it and equal to UTC
    from then on, so the wall clock reads the hour from 7200 to 10800
    seconds twice. A reading in that hour is taken with the offset before
    the change, as ECMAScript has it. *)
Definition clocks_go_back : Builtins :=
  {| StringToNumber := read_digits;
     LocalTZA := fun t isUTC =>
       if isUTC
       then (if Z.ltb t 7200000 then 3600000 else 0)%Z
       else (if Z.ltb t 10800000 then 3600000 else 0)%Z |}.

(** Auction 1: open from 00:00:00 to 00:05:00 of the first day of the
    calendar (the instants 0 and 300000 in UTC), at price 100. *)
Definition auction1 : row :=
  {| id := 1; name := "demo"; start_time := 0; end_time := 300;
     current_price := inject_Z 100; row_status := running |}.

Definition fresh_socket (c : conn) : wsobj :=
  {| _auctionId := None; readyState := OPEN |}.

Definition server0 : server :=
  {| db := [auction1]; rooms := []; sockets := fresh_socket; sent := [];
     published := []; store_log := [] |}.

Definition bid_of (i : string) (amount : Z) : bid_request :=
  {| params_id := i;
     body := JObj [("amount", JNum (num_of_Z amount)); ("userId", JStr "user-7")] |}.

Definition join_of (auctionId : jsval) : jsval :=
  JObj [("type", JStr "joinAuction"); ("payload", JObj [("auctionId", auctionId)])].

(** Two requests on auction 1, of 150 and of 120, and a schedule on which
    both arrive, both read the row, and then both write: 150 first, 120 last. *)
Definition two_bids : list bid_task :=
  [Arrived (bid_of "1" 150); Arrived (bid_of "1" 120)].

Definition turn (w : nat) (t : Z) : event :=
  {| who := w; at_time := t; store_up := true |}.

Definition interleaved : list event :=
  [turn 0 1000; turn 1 1001; turn 0 1002; turn 1 1003; turn 0 1004; turn 1 1005].

(** The same two requests as calls that run one after the other. *)
Definition call_of (i : string) (amount : Z) (t : Z) : bid_call :=
  {| call_req := bid_of i amount; call_now := t; call_now' := (t + 1)%Z;
     call_select_up := true; call_update_up := true |}.

(** A bid of 150 on auction 1 that names no bidder. *)
Definition unnamed_bid : bid_request :=
  {| params_id := "1"; body := JObj [("amount", JNum (num_of_Z 150))] |}.

(** Bids of 100.004 and then of 100.002 on auction 1, one call after the
    other. *)
Definition call_of_amount (i : string) (amount : Q) (t : Z) : bid_call :=
  {| call_req := {| params_id := i;
                    body := JObj [("amount", JNum (Fin amount));
                                  ("userId", JStr "user-7")] |};
     call_now := t; call_now' := (t + 1)%Z;
     call_select_up := true; call_update_up := true |}.

Definition within_a_cent : list bid_call :=
  [call_of_amount "1" (Qmake 100004 1000) 1000;
   call_of_amount "1" (Qmake 100002 1000) 2000].

(** Connection 0 watches auction 1, connection 1 watches nothing. *)
Definition server_watched : server :=
  joinRoom (js := digits_only) 0%nat (JNum (num_of_Z 1)) server0.

(** Two ticks of the sweeper, a second apart, after the end of auction 1.
    On [ticks_overlap] the UPDATE of the first tick is still pending when
    the second tick fires and reads the table; on [ticks_in_turn] the first
    tick has finished before the second fires. *)
Definition two_ticks : list sweep_task := [Fired; Fired].

Definition ticks_overlap : list event :=
  [turn 0 300500; turn 0 300510; turn 1 301500; turn 1 301510;
   turn 0 301520; turn 1 301530].

Definition ticks_in_turn : list event :=
  [turn 0 300500; turn 0 300510; turn 0 300520;
   turn 1 301500; turn 1 301510].

(** * More of the server, and the client that calls it *)

(** ** GET /api/auctions/:id (index.js, lines 159 to 180) *)

Inductive detail_response : Type :=
| detail_400                                      (* "无效的拍卖 ID" *)
| detail_404                                      (* "拍卖不存在" *)
| detail_500                                      (* "获取拍卖详情失败" *)
| detail_200 (auction : row) (serverTime : Z).

Definition auction_detail {js : Builtins} (params_id : string) (now : Z)
    (select_up : bool) (s : server) : detail_response :=
  let id := Number (JStr params_id) in
  if negb (truthy_num id) then detail_400
  else
    match select_by_id select_up id (db s) with
    | None => detail_500
    | Some [] => detail_404
    | Some (r :: _) => detail_200 r now
    end.

(** ** ensureSchema (lines 23 to 54)

    The table exists or is created empty; when it holds no row, one auction
    is inserted that started a minute before [now] and ends five minutes
    after it. [auto_id] is the id the store gives the new row; the two
    instants go through [formatDateTime] and are stored as the local
    readings of the wall clock. *)
Definition seed_auction {js : Builtins} (auto_id now : Z) : row :=
  {| id := auto_id;
     name := "示例测试拍卖（自动生成）";
     start_time := formatDateTime (now - 1 * 60 * 1000);
     end_time := formatDateTime (now + 5 * 60 * 1000);
     current_price := inject_Z 100;
     row_status := running |}.

Definition ensureSchema {js : Builtins} (now auto_id : Z) (d : list row) : list row :=
  let cnt := List.length d in
  if Nat.eqb cnt 0 then d ++ [seed_auction auto_id now] else d.

(** ** formatDateTime as text (lines 56 to 71)

    [dec] is the decimal text JavaScript gives an integer when it is
    concatenated to a string. *)
Definition dec (n : Z) : string := NilZero.string_of_int (Z.to_int n).

Definition pad (n : Z) : string := if Z.ltb n 10 then "0" ++ dec n else dec n.

(** What the getters of a [Date] return. *)
Record date_fields : Type := {
  getFullYear : Z;
  getMonth : Z;
  getDate : Z;
  getHours : Z;
  getMinutes : Z;
  getSeconds : Z
}.

Definition formatDateTime_text (d : date_fields) : string :=
  dec (getFullYear d) ++ "-" ++ pad (getMonth d + 1) ++ "-" ++ pad (getDate d)
  ++ " " ++ pad (getHours d) ++ ":" ++ pad (getMinutes d) ++ ":" ++ pad (getSeconds d).

(** The fields of a date of the common era with a four-digit year. *)
Definition valid_date (d : date_fields) : Prop :=
  (1000 <= getFullYear d <= 9999 /\ 0 <= getMonth d <= 11 /\ 1 <= getDate d <= 31
   /\ 0 <= getHours d <= 23 /\ 0 <= getMinutes d <= 59 /\ 0 <= getSeconds d <= 59)%Z.

(** ** Whole operations of the server, one after another *)

Inductive server_op : Type :=
| OpBid (c : bid_call)
| OpSweep (now : Z) (select_up : bool) (update_up : Z -> bool) (stamp : Z -> Z)
| OpMessage (ws : conn) (parsed : option jsval) (now : Z) (select_up : bool)
| OpClose (ws : conn).

Definition run_server_op {js : Builtins} (s : server) (o : server_op) : server :=
  match o with
  | OpBid c => run_call s c
  | OpSweep now select_up update_up stamp => sweep now select_up update_up stamp s
  | OpMessage ws parsed now select_up => on_message ws parsed now select_up s
  | OpClose ws => on_close ws s
  end.

Definition run_server_ops {js : Builtins} (ops : list server_op) (s : server) : server :=
  fold_left run_server_op ops s.

(** What never changes in a row. *)
Definition row_identity (r : row) : Z * string * Z * Z :=
  (id r, name r, start_time r, end_time r).

(** ** Readings of the registry *)

(** [rooms.get(k)?.has(c)]. *)
Definition member (c : conn) (k : num) (m : list (num * list conn)) : bool :=
  match Map_get k m with
  | Some set => Set_has c set
  | None => false
  end.

(** A [Set] holds a connection once. *)
Definition sets_distinct (m : list (num * list conn)) : Prop :=
  Forall (fun kv => NoDup (snd kv)) m.

(** A broadcast for auction [i] reaches connection [c]: the id is usable,
    [c] is in its room and the socket of [c] is open. *)
Definition reaches (c : conn) (i : Z) (s : server) : bool :=
  truthy_num (num_of_Z i) && member c (num_of_Z i) (rooms s)
  && is_open (readyState (sockets s c)).

(** A [Map] holds one entry per key. *)
Fixpoint keys_distinct (m : list (num * list conn)) : Prop :=
  match m with
  | [] => True
  | (k, _) :: m' => Map_get k m' = None /\ keys_distinct m'
  end.

(** Every membership is the one the connection records in [_auctionId]. *)
Definition memberships_recorded (s : server) : Prop :=
  forall c k set,
    In (k, set) (rooms s) -> In c set ->
    exists k', _auctionId (sockets s c) = Some k' /\ same_value_zero k' k = true.

(** Joins arrive only from connections that record no room, as from the
    bundled client, which joins once, when its socket opens. *)
Fixpoint joins_when_free {js : Builtins} (ops : list registry_op) (s : server) : Prop :=
  match ops with
  | [] => True
  | o :: rest =>
      match o with
      | Join ws _ => _auctionId (sockets s ws) = None
      | Leave _ => True
      end
      /\ joins_when_free rest (run_op s o)
  end.

(** ** The client (client/src/App.jsx) *)

(** [formatRemain] (lines 5 to 17), on a whole number of milliseconds. *)
Definition formatRemain (ms : Z) : string :=
  if Z.leb ms 0 then "00:00"
  else
    let totalSeconds := (ms / 1000)%Z in
    let m := (totalSeconds / 60)%Z in
    let s := (totalSeconds mod 60)%Z in
    if Z.geb m 60 then
      let h := (m / 60)%Z in
      let mm := (m mod 60)%Z in
      pad h ++ ":" ++ pad mm ++ ":" ++ pad s
    else pad m ++ ":" ++ pad s.

(** [a + b] and [a - b] on numbers. *)
Definition num_add (a b : num) : num :=
  match a, b with
  | NaN, _ | _, NaN => NaN
  | Fin x, Fin y => Fin (x + y)
  | PInf, NInf | NInf, PInf => NaN
  | PInf, _ | _, PInf => PInf
  | NInf, _ | _, NInf => NInf
  end.

Definition num_neg (a : num) : num :=
  match a with
  | Fin x => Fin (- x)
  | PInf => NInf
  | NInf => PInf
  | NaN => NaN
  end.

Definition num_sub (a b : num) : num := num_add a (num_neg b).

(** A number as the other side reads it after [JSON.stringify] and
    [JSON.parse]: one that is not finite travels as [null]. *)
Definition over_json (n : num) : jsval :=
  match n with
  | Fin _ => JNum n
  | _ => JNull
  end.

(** The body of a 200 reply of the time-sync endpoint as the client parses
    it; a 400 makes [res.ok] false. *)
Definition time_sync_reply (r : time_sync_response) : option (jsval * jsval) :=
  match r with
  | time_sync_400 => None
  | time_sync_200 serverTime clientTime =>
      Some (JNum (num_of_Z serverTime), over_json clientTime)
  end.

(** [syncTime] (lines 124 to 146): the request carries the local clock; the
    offset is the difference of the two fields of the reply, and 0 when
    the exchange fails. The returned offset is stored in [timeOffsetRef]. *)
Definition syncTime_request (clientTime : Z) : jsval :=
  JObj [("clientTime", JNum (num_of_Z clientTime))].

Definition syncTime {js : Builtins} (reply : option (jsval * jsval)) : num :=
  match reply with
  | Some (serverTime, receivedClientTime) =>
      num_sub (Number serverTime) (Number receivedClientTime)
  | None => num_of_Z 0
  end.

(** [getServerNow] (lines 38 to 40) at local clock [local]. *)
Definition getServerNow (local : Z) (timeOffset : num) : num :=
  num_add (num_of_Z local) timeOffset.

(** The rows a tick gets through before an UPDATE throws. *)
Fixpoint swept (rows : list row) (update_up : Z -> bool) : list row :=
  match rows with
  | [] => []
  | a :: rest => if update_up (id a) then a :: swept rest update_up else []
  end.

(** More concrete inputs: a second auction, a server that has ended auction
    1, a run of operations, a date, and a freshly seeded server. *)
Definition auction2 : row :=
  {| id := 2; name := "second"; start_time := 0; end_time := 300;
     current_price := inject_Z 50; row_status := pending |}.

Definition server_two : server := with_db [auction1; auction2] server0.

Definition server_ended : server :=
  sweep (js := digits_only) 300500 true (fun _ => true) (fun _ => 300501%Z) server0.

Definition some_ops : list server_op :=
  [OpBid (call_of "1" 150 1000);
   OpMessage 0%nat (Some (join_of (JNum (num_of_Z 1)))) 2000 true;
   OpSweep 400000 true (fun _ => true) (fun _ => 400001%Z);
   OpClose 0%nat].

Definition some_joins : list registry_op :=
  [Join 0%nat (JNum (num_of_Z 1)); Join 1%nat (JNum (num_of_Z 1)); Leave 0%nat;
   Join 0%nat (JNum (num_of_Z 2))].

Definition a_date : date_fields :=
  {| getFullYear := 2024; getMonth := 0; getDate := 5;
     getHours := 9; getMinutes := 3; getSeconds := 7 |}.

(** An auction that ends at 02:30:00 of the first day. *)
Definition auction3 : row :=
  {| id := 3; name := "night"; start_time := 0; end_time := 9000;
     current_price := inject_Z 10; row_status := running |}.

Definition server_seeded : server :=
  with_db (ensureSchema (js := digits_only) 1000000 1 []) server0.

(** * Properties *)

Section Properties.

Context {js : Builtins}.

(** ** Time sync *)


(** ** The bid endpoint *)

Lemma resolved_select :
  forall up n d,
    select_by_id up n d = if up && is_finite n then Some (resolved n d) else None.
Proof.
  intros up n d. unfold select_by_id, resolved.
  destruct up, n; reflexivity.
Qed.

(** C2, as amended. The handler replies with the failure of the first check
    that does not hold, in the order of [checks_of_handler], and accepts the
    bid when all of them hold. *)
Theorem bid_handler_first_failure :
  forall (req : bid_request) (now now' : Z) (select_up update_up : bool) (s : server),
    fst (bid_handler req now now' select_up update_up s)
    = match first_failure (checks_of_handler req now select_up update_up (db s)) with
      | Some f => Rejected f
      | None => Accepted (payload_of req now')
      end.
Proof.
  intros req now now' su uu s.
  unfold bid_handler, bid_parse, checks_of_handler, payload_of, first_failure.
  set (id := Number (JStr (params_id req))).
  set (amount := prop (or_empty (body req)) "amount").
  destruct amount as [| |b|a|str|items|fields]; simpl;
    try (destruct (truthy_num id); reflexivity).
  destruct (truthy_num id); simpl; [|reflexivity].
  destruct (num_leb a (num_of_Z 0)); simpl; [reflexivity|].
  rewrite resolved_select.
  destruct (su && is_finite id) eqn:Esel; simpl; [|reflexivity].
  unfold bid_check.
  destruct (resolved id (db s)) as [|auction rest] eqn:Eres; simpl; [reflexivity|].
  assert (Hrest : rest = []).
  { unfold resolved in Eres. destruct id; try discriminate.
    destruct (filter (id_matches q) (db s)) as [|x xs]; simpl in Eres;
      congruence. }
  subst rest. simpl. rewrite !andb_true_r.
  rewrite Z.gtb_ltb, !Z.ltb_antisym.
  destruct (Z.leb (Date_of_DATETIME (start_time auction)) now); simpl; [|reflexivity].
  destruct (Z.leb now (Date_of_DATETIME (end_time auction))); simpl; [|reflexivity].
  destruct (status_eqb (row_status auction) ended); simpl; [reflexivity|].
  destruct (num_leb a (Fin (current_price auction))); simpl; [reflexivity|].
  unfold bid_commit, update_price.
  destruct uu; simpl; [|reflexivity].
  destruct id; simpl in Esel; try (rewrite andb_false_r in Esel; discriminate).
  destruct a; reflexivity.
Qed.

(** [broadcastToAuction] only appends: the call to [published], and one
    send of the payload per open member to [sent]. *)
Lemma broadcast_frame :
  forall a p s,
    db (broadcastToAuction a p s) = db s
    /\ store_log (broadcastToAuction a p s) = store_log s
    /\ rooms (broadcastToAuction a p s) = rooms s
    /\ sockets (broadcastToAuction a p s) = sockets s
    /\ published (broadcastToAuction a p s) = published s ++ [p]
    /\ exists members,
        sent (broadcastToAuction a p s) = sent s ++ map (fun c => (c, p)) members.
Proof.
  intros a p s. unfold broadcastToAuction; simpl.
  destruct (negb (truthy_num (Number a))); simpl.
  - repeat split. exists []. simpl. now rewrite app_nil_r.
  - destruct (Map_get (Number a) (rooms s)) as [set|]; simpl.
    + repeat split.
      now exists (filter (fun c => is_open (readyState (sockets s c))) set).
    + repeat split. exists []. simpl. now rewrite app_nil_r.
Qed.

Lemma resolved_single :
  forall n d r rest, resolved n d = r :: rest -> resolved n d = [r].
Proof.
  intros n d r rest H. rewrite H. f_equal.
  unfold resolved in H. destruct n as [q| | |]; try discriminate.
  destruct (filter (id_matches q) d) as [|x [|y l]]; simpl in H; congruence.
Qed.

Lemma bid_check_passed :
  forall now amount rows auction,
    bid_check now amount rows = inr auction ->
    exists rest,
      rows = auction :: rest
      /\ num_leb amount (Fin (current_price auction)) = false.
Proof.
  intros now amount rows auction. unfold bid_check.
  destruct rows as [|r rest]; [discriminate|].
  destruct (Z.ltb now (Date_of_DATETIME (start_time r))); [discriminate|].
  destruct (Z.gtb now (Date_of_DATETIME (end_time r)) || status_eqb (row_status r) ended); [discriminate|].
  destruct (num_leb amount (Fin (current_price r))) eqn:E; [discriminate|].
  intros H. injection H as <-. eauto.
Qed.

(** ** The price column *)

Lemma cents_nearest :
  forall a,
    (0 <= a)%Q ->
    (inject_Z (cents a) - (1 # 2) <= 100 * a
     /\ 100 * a < inject_Z (cents a) + (1 # 2))%Q.
Proof.
  intros a Ha. unfold cents.
  apply Qle_bool_iff in Ha. rewrite Ha.
  pose proof (Qfloor_le (100 * a + (1 # 2))) as Hlo.
  pose proof (Qlt_floor (100 * a + (1 # 2))) as Hhi.
  rewrite inject_Z_plus in Hhi.
  change (inject_Z 1) with 1%Q in Hhi.
  split; lra.
Qed.

Lemma cents_nonneg : forall a, (0 <= a)%Q -> (0 <= cents a)%Z.
Proof.
  intros a Ha. unfold cents.
  assert (Hb : Qle_bool 0 a = true) by now apply Qle_bool_iff.
  rewrite Hb.
  change 0%Z with (Qfloor 0). apply Qfloor_resp_le. lra.
Qed.


(** What [decimal_10_2] makes of a positive amount. *)
Lemma decimal_10_2_stored :
  forall a, (0 < a)%Q -> stored_as a (decimal_10_2 a).
Proof.
  intros a Ha. exists (cents a). split.
  - apply cents_nearest. lra.
  - unfold decimal_10_2. rewrite Qred_correct.
    assert (H0 : (0 <= cents a)%Z) by (apply cents_nonneg; lra).
    unfold max_cents. rewrite Z.max_r by lia. reflexivity.
Qed.



Lemma Set_has_In : forall c l, Set_has c l = true <-> In c l.
Proof.
  intros c l. unfold Set_has. rewrite existsb_exists. split.
  - intros (x & Hx & E). apply Nat.eqb_eq in E. now subst.
  - intros H. exists c. split; auto. apply Nat.eqb_refl.
Qed.

(** An accepted bid, step by step: the request as it was read, the row
    that was read, the state after the UPDATE, and the broadcast on that
    state. *)
Lemma bid_handler_accepted_open :
  forall req now now' su uu s p s',
    bid_handler req now now' su uu s = (Accepted p, s') ->
    exists q a auction s1,
      Number (JStr (params_id req)) = Fin q
      /\ truthy_num (Fin q) = true
      /\ prop (or_empty (body req)) "amount" = JNum (Fin a)
      /\ resolved (Fin q) (db s) = [auction]
      /\ row_status auction <> ended
      /\ (Date_of_DATETIME (start_time auction) <= now
          <= Date_of_DATETIME (end_time auction))%Z
      /\ update_price true (Fin q) (Fin a) s = Some s1
      /\ s' = broadcastToAuction (JNum (Fin q)) p s1.
Proof.
  intros req now now' su uu s p s'.
  unfold bid_handler, bid_parse.
  remember (Number (JStr (params_id req))) as i eqn:Ei.
  destruct (prop (or_empty (body req)) "amount") as [| |b|a|str|items|fields];
    try discriminate.
  destruct (truthy_num i) eqn:Ht; cbn [negb orb]; [|discriminate].
  destruct (num_leb a (num_of_Z 0)); [discriminate|].
  rewrite resolved_select.
  destruct (su && is_finite i); [|discriminate].
  destruct (bid_check now a (resolved i (db s))) as [f|auction] eqn:Echeck;
    [discriminate|].
  unfold bid_commit.
  destruct (update_price uu i a s) as [s1|] eqn:Eup; [|discriminate].
  intros H. injection H as <- <-.
  unfold update_price in Eup. destruct uu; [|discriminate].
  destruct i as [q| | |]; try discriminate.
  destruct a as [a| | |]; try discriminate.
  exists q, a, auction, s1.
  unfold bid_check in Echeck.
  destruct (resolved (Fin q) (db s)) as [|r rest] eqn:Eres; [discriminate|].
  destruct (Z.ltb_spec now (Date_of_DATETIME (start_time r))); [discriminate|].
  destruct (Z.gtb_spec now (Date_of_DATETIME (end_time r))); cbn [orb] in Echeck;
    [discriminate|].
  destruct (status_eqb (row_status r) ended) eqn:Est; [discriminate|].
  destruct (num_leb (Fin a) (Fin (current_price r))); [discriminate|].
  injection Echeck as <-.
  pose proof (resolved_single _ _ _ _ Eres) as Hone. rewrite Eres in Hone.
  assert (Hst : row_status r <> ended)
    by (intros E; rewrite E in Est; discriminate).
  assert (Hup : update_price true (Fin q) (Fin a) s = Some s1) by exact Eup.
  repeat split; auto.
Qed.

(** The amount of a request that passes the screening is above 0. *)
Lemma bid_parse_positive :
  forall req i a u,
    bid_parse req = Some (i, Fin a, u) ->
    prop (or_empty (body req)) "amount" = JNum (Fin a) /\ (0 < a)%Q.
Proof.
  intros req i a u. unfold bid_parse.
  destruct (prop (or_empty (body req)) "amount") as [| |b|x|str|items|fields];
    try discriminate.
  destruct (negb (truthy_num (Number (JStr (params_id req))))); [discriminate|].
  cbn [orb]. destruct (num_leb x (num_of_Z 0)) eqn:E; [discriminate|].
  intros H. injection H as _ -> _. split; auto.
  simpl in E. apply Qnot_le_lt. intros Hle. apply Qle_bool_iff in Hle.
  change (inject_Z 0) with 0%Q in E. congruence.
Qed.

Lemma bid_handler_accepted_positive :
  forall req now now' su uu s p s' a,
    bid_handler req now now' su uu s = (Accepted p, s') ->
    prop (or_empty (body req)) "amount" = JNum (Fin a) ->
    (0 < a)%Q.
Proof.
  intros req now now' su uu s p s' a. unfold bid_handler.
  destruct (bid_parse req) as [[[i x] u]|] eqn:Eparse; [|discriminate].
  intros _ Ha. destruct x as [x| | |].
  - destruct (bid_parse_positive _ _ _ _ Eparse) as [Hx Hpos].
    rewrite Hx in Ha. injection Ha as <-. exact Hpos.
  - unfold bid_parse in Eparse. rewrite Ha in Eparse.
    destruct (negb (truthy_num (Number (JStr (params_id req)))) || _);
      [discriminate|]. injection Eparse as _ E _. discriminate.
  - unfold bid_parse in Eparse. rewrite Ha in Eparse.
    destruct (negb (truthy_num (Number (JStr (params_id req)))) || _);
      [discriminate|]. injection Eparse as _ E _. discriminate.
  - unfold bid_parse in Eparse. rewrite Ha in Eparse.
    destruct (negb (truthy_num (Number (JStr (params_id req)))) || _);
      [discriminate|]. injection Eparse as _ E _. discriminate.
Qed.

(** What an accepted bid has done: one UPDATE, one call of
    [broadcastToAuction], and sends of the payload only. *)
Lemma bid_handler_accepted :
  forall req now now' su uu s p s',
    bid_handler req now now' su uu s = (Accepted p, s') ->
    p = payload_of req now'
    /\ (exists q a auction,
          Number (JStr (params_id req)) = Fin q
          /\ prop (or_empty (body req)) "amount" = JNum (Fin a)
          /\ resolved (Fin q) (db s) = [auction]
          /\ (current_price auction < a)%Q
          /\ db s' = map (fun r => if id_matches q r
                                   then set_price (decimal_10_2 a) r else r) (db s)
          /\ store_log s' = store_log s ++ [SetPrice (Fin q) (decimal_10_2 a)])
    /\ published s' = published s ++ [p]
    /\ (exists members, sent s' = sent s ++ map (fun c => (c, p)) members)
    /\ rooms s' = rooms s
    /\ sockets s' = sockets s.
Proof.
  intros req now now' su uu s p s'.
  unfold bid_handler, bid_parse, payload_of.
  destruct (prop (or_empty (body req)) "amount") as [| |b|a|str|items|fields];
    try discriminate.
  destruct (negb (truthy_num (Number (JStr (params_id req)))) || num_leb a (num_of_Z 0));
    [discriminate|].
  rewrite resolved_select.
  destruct (su && is_finite (Number (JStr (params_id req)))); [|discriminate].
  destruct (bid_check now a _) as [f|auction] eqn:Echeck; [discriminate|].
  unfold bid_commit, update_price.
  destruct uu; [|discriminate].
  destruct (Number (JStr (params_id req))) as [q| | |]; try discriminate.
  destruct a as [a| | |]; try discriminate.
  intros H. injection H as Hp Hs. subst p.
  match type of Hs with broadcastToAuction ?x ?m ?s1 = _ =>
    destruct (broadcast_frame x m s1) as (Hdb & Hlog & Hrooms & Hsock & Hpub & Hsent)
  end.
  rewrite Hs in Hdb, Hlog, Hrooms, Hsock, Hpub, Hsent.
  simpl in Hdb, Hlog, Hrooms, Hsock, Hpub, Hsent.
  split; [reflexivity|].
  split; [|repeat split; assumption].
  destruct (bid_check_passed _ _ _ _ Echeck) as (rest & Hres & Hprice).
  exists q, a, auction. repeat split; try assumption.
  - apply resolved_single in Hres. now rewrite Hres.
  - simpl in Hprice. apply Qnot_le_lt. intros Hle.
    apply Qle_bool_iff in Hle. congruence.
Qed.

Lemma bid_handler_rejected :
  forall req now now' su uu s f s',
    bid_handler req now now' su uu s = (Rejected f, s') -> s' = s.
Proof.
  intros req now now' su uu s f s'.
  unfold bid_handler.
  destruct (bid_parse req) as [[[i a] u]|]; [|congruence].
  destruct (select_by_id su i (db s)) as [rows|]; [|congruence].
  destruct (bid_check now a rows) as [g|auction]; [congruence|].
  unfold bid_commit.
  destruct (update_price uu i a s); [discriminate|congruence].
Qed.

Lemma Forall2_map_self :
  forall (A : Type) (R : A -> A -> Prop) (f : A -> A) (l : list A),
    (forall x, R x (f x)) -> Forall2 R l (map f l).
Proof.
  intros A R f l H. induction l as [|x l IH]; simpl; constructor; auto.
Qed.

Lemma update_price_row :
  forall q stored r,
    written_row q stored r (if id_matches q r then set_price stored r else r).
Proof.
  intros q stored r. unfold written_row, id_matches.
  destruct (Qeq_bool (inject_Z (id r)) q) eqn:E.
  - split; [reflexivity|]. intros H. exfalso. apply H. now apply Qeq_bool_iff.
  - split; [|reflexivity]. intros H. apply Qeq_bool_iff in H. congruence.
Qed.

(** The sends of one broadcast to the room of a usable id. *)
Lemma broadcast_recipients :
  forall q p s,
    truthy_num (Fin q) = true ->
    exists recipients,
      sent (broadcastToAuction (JNum (Fin q)) p s)
      = sent s ++ map (fun c => (c, p)) recipients
      /\ (forall c, In c recipients
                    <-> member c (Fin q) (rooms s) = true
                        /\ readyState (sockets s c) = OPEN)
      /\ (forall set, Map_get (Fin q) (rooms s) = Some set ->
                      NoDup set -> NoDup recipients).
Proof.
  intros q p s Ht. unfold broadcastToAuction, member.
  cbn [Number rooms with_published]. rewrite Ht. cbn [negb].
  destruct (Map_get (Fin q) (rooms s)) as [set|] eqn:E.
  - exists (filter (fun c => is_open (readyState (sockets s c))) set).
    split; [reflexivity|]. split.
    + intros c. rewrite filter_In, Set_has_In.
      destruct (readyState (sockets s c)); simpl; intuition congruence.
    + intros set0 H Hnd. injection H as <-. now apply NoDup_filter.
  - exists []. split; [simpl; now rewrite app_nil_r|]. split.
    + intros c. simpl. intuition congruence.
    + intros set0 H. discriminate.
Qed.

(** C9. A call that replies with a failure leaves the whole state of the
    server as it was: no row is written and nothing is published or sent. A
    call that succeeds has executed exactly one UPDATE, of the amount of the
    request as the price column stores it, on the rows of the id of the
    request, which become [running]; it has called [broadcastToAuction]
    exactly once, with the payload it returns, and that payload was sent
    once to each member of the room of the id whose socket is open and to
    nobody else. The same holds between the [await]s: a step of a request
    either changes nothing or is the one step that writes, publishes and
    replies with success. *)
Theorem bid_effects_only_on_success :
  (forall (req : bid_request) (now now' : Z) (select_up update_up : bool) (s : server),
      match bid_handler req now now' select_up update_up s with
      | (Rejected _, s') => s' = s
      | (Accepted p, s') =>
          exists (q amount stored : Q) (recipients : list conn),
            Number (JStr (params_id req)) = Fin q
            /\ prop (or_empty (body req)) "amount" = JNum (Fin amount)
            /\ p = bidUpdate (Fin q) (Fin amount)
                     (if truthy (prop (or_empty (body req)) "userId")
                      then prop (or_empty (body req)) "userId"
                      else JStr "anonymous") now'
            /\ stored_as amount stored
            /\ store_log s' = store_log s ++ [SetPrice (Fin q) stored]
            /\ Forall2 (written_row q stored) (db s) (db s')
            /\ published s' = published s ++ [p]
            /\ sent s' = sent s ++ map (fun c => (c, p)) recipients
            /\ (forall c, In c recipients
                          <-> member c (Fin q) (rooms s) = true
                              /\ readyState (sockets s c) = OPEN)
            /\ (forall set, Map_get (Fin q) (rooms s) = Some set ->
                            NoDup set -> NoDup recipients)
            /\ rooms s' = rooms s
            /\ sockets s' = sockets s
      end)
  /\ (forall (t : Z) (up : bool) (k : bid_task) (s : server),
         snd (bid_step t up k s) = s
         \/ exists q amount userId stored,
              k = Updating (Fin q) (Fin amount) userId
              /\ fst (bid_step t up k s)
                 = Replied (Accepted (bidUpdate (Fin q) (Fin amount)
                                        (if truthy userId then userId
                                         else JStr "anonymous") t))
              /\ store_log (snd (bid_step t up k s))
                 = store_log s ++ [SetPrice (Fin q) stored]
              /\ Forall2 (written_row q stored) (db s) (db (snd (bid_step t up k s)))
              /\ published (snd (bid_step t up k s))
                 = published s ++ [bidUpdate (Fin q) (Fin amount)
                                     (if truthy userId then userId
                                      else JStr "anonymous") t]).
Proof.
  split.
  - intros req now now' su uu s.
    destruct (bid_handler req now now' su uu s) as [[f|p] s'] eqn:E.
    + eapply bid_handler_rejected; eassumption.
    + pose proof (bid_handler_accepted _ _ _ _ _ _ _ _ E) as Hacc.
      destruct Hacc as (Hp & _ & Hpub & _ & Hrooms & Hsock).
      pose proof (bid_handler_accepted_open _ _ _ _ _ _ _ _ E) as Hopen.
      destruct Hopen as (q & a & auction & s1 & Hid & Ht & Ha & _ & _ & _ & Hup & Hs').
      pose proof (bid_handler_accepted_positive _ _ _ _ _ _ _ _ _ E Ha) as Hpos.
      unfold update_price in Hup. injection Hup as Hs1.
      destruct (broadcast_recipients q p s1 Ht) as (recipients & Hsent & Hin & Hnd).
      destruct (broadcast_frame (JNum (Fin q)) p s1) as (Hdb & Hlog & _).
      rewrite <- Hs' in Hsent, Hdb, Hlog.
      rewrite <- Hs1 in Hsent, Hin, Hnd, Hdb, Hlog.
      cbn [sent rooms sockets db store_log with_store_log with_db] in Hsent, Hin, Hnd, Hdb, Hlog.
      exists q, a, (decimal_10_2 a), recipients.
      split; [exact Hid|]. split; [exact Ha|].
      split; [rewrite Hp; unfold payload_of; now rewrite Hid, Ha|].
      split; [now apply decimal_10_2_stored|].
      split; [exact Hlog|].
      split; [rewrite Hdb; apply Forall2_map_self; intros r; apply update_price_row|].
      split; [exact Hpub|]. split; [exact Hsent|]. split; [exact Hin|].
      split; [exact Hnd|]. split; assumption.
  - intros t up k s. destruct k as [req|now i a u|i a u|r]; simpl.
    + left. destruct (bid_parse req) as [[[i a] u]|]; reflexivity.
    + left. destruct (select_by_id up i (db s)) as [rows|]; [|reflexivity].
      destruct (bid_check now a rows); reflexivity.
    + unfold bid_commit, update_price.
      destruct up; [|now left].
      destruct i as [q| | |]; try now left.
      destruct a as [a| | |]; try now left.
      right. cbn [fst snd].
      match goal with |- context [broadcastToAuction ?x ?m ?s1] =>
        destruct (broadcast_frame x m s1) as (Hdb & Hlog & _ & _ & Hpub & _)
      end.
      exists q, a, u, (decimal_10_2 a).
      rewrite Hdb, Hlog, Hpub. cbn [db store_log published with_store_log with_db].
      repeat split; auto.
      apply Forall2_map_self. intros r. apply update_price_row.
    + now left.
Qed.

(** C10. When the body of an accepted bid has no [userId], or a falsy one
    (null, false, 0, the empty string), the payload returned to the submitter
    names the bidder ["anonymous"], and it is that payload which is published
    and sent to the members of the room. *)
Theorem anonymous_bidder :
  forall (req : bid_request) (now now' : Z) (select_up update_up : bool)
         (s s' : server) (p : message),
    bid_handler req now now' select_up update_up s = (Accepted p, s') ->
    truthy (prop (or_empty (body req)) "userId") = false ->
    (exists auctionId newPrice, p = bidUpdate auctionId newPrice (JStr "anonymous") now')
    /\ published s' = published s ++ [p]
    /\ (exists members, sent s' = sent s ++ map (fun c => (c, p)) members).
Proof.
  intros req now now' su uu s s' p E Hfalsy.
  apply bid_handler_accepted in E.
  destruct E as (Hp & _ & Hpub & Hsent & _).
  split; [|split; assumption].
  subst p. unfold payload_of. rewrite Hfalsy. eauto.
Qed.

(** C6. A well-formed bid on an existing auction, made when the clock of the
    handler is past the end of the auction, is refused as closed whatever
    status the row still has; nothing is written. *)
Theorem bid_after_end_is_closed :
  forall (req : bid_request) (now now' : Z) (update_up : bool) (s : server)
         (id amount : num) (userId : jsval) (auction : row) (rest : list row),
    bid_parse req = Some (id, amount, userId) ->
    select_by_id true id (db s) = Some (auction :: rest) ->
    (Date_of_DATETIME (start_time auction) <= Date_of_DATETIME (end_time auction))%Z ->
    (Date_of_DATETIME (end_time auction) < now)%Z ->
    bid_handler req now now' true update_up s = (Rejected Closed, s).
Proof.
  intros req now now' uu s i a u auction rest Hparse Hsel Hwin Hlate.
  unfold bid_handler. rewrite Hparse, Hsel. unfold bid_check.
  destruct (Z.ltb_spec now (Date_of_DATETIME (start_time auction))) as [H|H]; [lia|].
  destruct (Z.gtb_spec now (Date_of_DATETIME (end_time auction))) as [H'|H']; [reflexivity|lia].
Qed.

(** ** The room registry *)

Lemma same_value_zero_refl : forall k, same_value_zero k k = true.
Proof.
  intros [q| | |]; simpl; try reflexivity.
  apply Qeq_bool_iff. reflexivity.
Qed.

Lemma Map_get_set_same :
  forall k v m, Map_get k (Map_set k v m) = Some v.
Proof.
  intros k v m. induction m as [|[k' v'] m IH]; simpl.
  - now rewrite same_value_zero_refl.
  - destruct (same_value_zero k' k) eqn:E; simpl; rewrite E; auto.
Qed.

Lemma Map_set_set :
  forall k v0 v m, Map_set k v (Map_set k v0 m) = Map_set k v m.
Proof.
  intros k v0 v m. induction m as [|[k' v'] m IH]; simpl.
  - now rewrite same_value_zero_refl.
  - destruct (same_value_zero k' k) eqn:E; simpl; rewrite E; congruence.
Qed.

Lemma Map_set_no_empty :
  forall k v m, v <> [] -> no_empty_room m -> no_empty_room (Map_set k v m).
Proof.
  intros k v m Hv. unfold no_empty_room.
  induction m as [|[k' v'] m IH]; simpl; intros H.
  - constructor; auto.
  - inversion H; subst.
    destruct (same_value_zero k' k); constructor; auto.
Qed.

Lemma Map_delete_no_empty :
  forall k m, no_empty_room m -> no_empty_room (Map_delete k m).
Proof.
  intros k m. unfold no_empty_room.
  induction m as [|[k' v'] m IH]; simpl; intros H; auto.
  inversion H; subst.
  destruct (same_value_zero k' k); auto.
Qed.

Lemma Set_add_has : forall c l, Set_has c (Set_add c l) = true.
Proof.
  intros c l. unfold Set_add.
  destruct (Set_has c l) eqn:E; auto.
  unfold Set_has. rewrite existsb_app. simpl.
  now rewrite Nat.eqb_refl, orb_true_r.
Qed.

Lemma Set_add_not_nil : forall c l, Set_add c l <> [].
Proof.
  intros c l H. pose proof (Set_add_has c l) as E.
  rewrite H in E. discriminate.
Qed.

(** What a join with a usable id does to the registry. *)
Lemma joinRoom_joins :
  forall ws auctionId s,
    truthy_num (Number auctionId) = true ->
    exists set,
      rooms (joinRoom ws auctionId s)
      = Map_set (Number auctionId) (Set_add ws set) (rooms s)
      /\ _auctionId (sockets (joinRoom ws auctionId s) ws) = Some (Number auctionId)
      /\ sent (joinRoom ws auctionId s) = sent s
      /\ db (joinRoom ws auctionId s) = db s.
Proof.
  intros ws a s Hid. unfold joinRoom. rewrite Hid. simpl.
  rewrite Nat.eqb_refl. simpl.
  unfold Map_has.
  destruct (Map_get (Number a) (rooms s)) as [set|] eqn:E.
  - rewrite E. exists set. auto.
  - rewrite Map_get_set_same, Map_set_set. exists []. auto.
Qed.

(** X1. No sequence of joins and leaves produces a room without members. *)
Lemma registry_no_empty_room :
  forall (ops : list registry_op) (s : server),
    no_empty_room (rooms s) -> no_empty_room (rooms (fold_left run_op ops s)).
Proof.
  induction ops as [|o ops IH]; intros s H; simpl; auto.
  apply IH. destruct o as [ws a|ws]; simpl.
  - destruct (truthy_num (Number a)) eqn:Hid.
    + destruct (joinRoom_joins ws a s Hid) as (set & Hr & _).
      rewrite Hr. apply Map_set_no_empty; auto using Set_add_not_nil.
    + unfold joinRoom. now rewrite Hid.
  - unfold leaveRoom.
    destruct (_auctionId (sockets s ws)) as [i|]; auto.
    destruct (negb (truthy_num i)); auto. simpl.
    destruct (Map_get i (rooms s)) as [set|]; auto.
    destruct (Set_delete ws set) as [|c rest] eqn:E; simpl.
    + now apply Map_delete_no_empty.
    + apply Map_set_no_empty; auto. discriminate.
Qed.

(** C8, as amended. A [joinAuction] message whose id reads as 0 or NaN is
    dropped: the state of the server is untouched and nothing is sent. With
    any other id, a negative or an unknown one included, the connection
    becomes a member of the room of that id and records it; no failure is
    ever replied, and the only thing sent is the [auctionData] snapshot
    when a row has the id. *)
Theorem join_only_falsy_id_is_dropped :
  forall (ws : conn) (data : jsval) (now : Z) (select_up : bool) (s : server),
    is_string (prop (or_empty data) "type") "joinAuction" = true ->
    let id := Number (prop (or_empty (prop (or_empty data) "payload")) "auctionId") in
    let s' := on_message ws (Some data) now select_up s in
    (truthy_num id = false -> s' = s)
    /\ (truthy_num id = true ->
        (exists set, Map_get id (rooms s') = Some set /\ Set_has ws set = true)
        /\ _auctionId (sockets s' ws) = Some id
        /\ (sent s' = sent s
            \/ exists r, In r (db s) /\ sent s' = sent s ++ [(ws, auctionData r now)])
        /\ (resolved id (db s) = [] -> sent s' = sent s)).
Proof.
  intros ws data now su s Htype id s'.
  subst s'. unfold on_message. rewrite Htype. fold id.
  split; intros Hid; rewrite Hid; simpl; [reflexivity|].
  assert (Hnum : truthy_num (Number (JNum id)) = true) by exact Hid.
  destruct (joinRoom_joins ws (JNum id) s Hnum) as (set & Hr & Hsock & Hsent & Hdb).
  simpl Number in Hr, Hsock.
  set (s1 := joinRoom ws (JNum id) s) in *.
  assert (Hframe : forall s2, rooms s2 = rooms s1 -> sockets s2 = sockets s1 ->
            (exists set0, Map_get id (rooms s2) = Some set0 /\ Set_has ws set0 = true)
            /\ _auctionId (sockets s2 ws) = Some id).
  { intros s2 E1 E2. rewrite E1, E2, Hr. split; auto.
    exists (Set_add ws set). rewrite Map_get_set_same. auto using Set_add_has. }
  rewrite resolved_select, Hdb.
  destruct (su && is_finite id) eqn:Eup.
  - destruct (resolved id (db s)) as [|r rest] eqn:Eres.
    + destruct (Hframe s1 eq_refl eq_refl). repeat split; auto.
    + assert (Hin : In r (db s)).
      { unfold resolved in Eres. destruct id as [q| | |]; try discriminate.
        assert (Hf : In r (filter (id_matches q) (db s))).
        { destruct (filter (id_matches q) (db s)); simpl in Eres;
            [discriminate|]. injection Eres as -> _. now left. }
        apply filter_In in Hf. tauto. }
      destruct (is_open (readyState (sockets s1 ws))).
      * destruct (Hframe (with_sent (sent s1 ++ [(ws, auctionData r now)]) s1)
                    eq_refl eq_refl).
        repeat split; auto; simpl; rewrite Hsent; [right; eauto|discriminate].
      * destruct (Hframe s1 eq_refl eq_refl). repeat split; auto.
  - destruct (Hframe s1 eq_refl eq_refl). repeat split; auto.
Qed.

(** ** The expiry sweeper *)

Lemma num_of_Z_same : forall j i, same_value_zero (num_of_Z j) (num_of_Z i) = Z.eqb j i.
Proof.
  intros j i. unfold num_of_Z, same_value_zero, Qeq_bool. simpl.
  now rewrite !Z.mul_1_r.
Qed.

Lemma ended_writes_snoc :
  forall i l j,
    ended_writes i (l ++ [SetStatus j ended])
    = (ended_writes i l + (if Z.eqb j i then 1 else 0))%nat.
Proof.
  intros i l j. unfold ended_writes.
  rewrite filter_app, length_app. simpl.
  destruct (Z.eqb j i); reflexivity.
Qed.

Lemma ended_events_snoc :
  forall i l j t,
    ended_events i (l ++ [auctionEnded (num_of_Z j) t])
    = (ended_events i l + (if Z.eqb j i then 1 else 0))%nat.
Proof.
  intros i l j t. unfold ended_events.
  rewrite filter_app, length_app. cbn [filter]. rewrite num_of_Z_same.
  destruct (Z.eqb j i); reflexivity.
Qed.

(** One turn of the loop, when its UPDATE is answered. *)
Lemma sweep_turn :
  forall i j t s s1,
    update_ended true j s = Some s1 ->
    let s2 := broadcastToAuction (JNum (num_of_Z j)) (auctionEnded (num_of_Z j) t) s1 in
    db s2 = map (fun r => if Z.eqb (id r) j then set_status ended r else r) (db s)
    /\ ended_writes i (store_log s2)
       = (ended_writes i (store_log s) + (if Z.eqb j i then 1 else 0))%nat
    /\ ended_events i (published s2)
       = (ended_events i (published s) + (if Z.eqb j i then 1 else 0))%nat.
Proof.
  intros i j t s s1 H s2. unfold update_ended in H. injection H as <-.
  destruct (broadcast_frame (JNum (num_of_Z j)) (auctionEnded (num_of_Z j) t)
              (with_store_log (store_log s ++ [SetStatus j ended])
                 (with_db (map (fun r => if Z.eqb (id r) j
                                         then set_status ended r else r) (db s)) s)))
    as (Hdb & Hlog & _ & _ & Hpub & _).
  subst s2. rewrite Hdb, Hlog, Hpub. simpl.
  rewrite ended_writes_snoc, ended_events_snoc. auto.
Qed.

(** Every broadcast of the sweeper follows an executed UPDATE of the same
    auction, whatever the store does. *)
Lemma sweep_rows_paired :
  forall i rows update_up stamp s,
    (ended_writes i (store_log (sweep_rows rows update_up stamp s))
     + ended_events i (published s)
     = ended_writes i (store_log s)
       + ended_events i (published (sweep_rows rows update_up stamp s)))%nat.
Proof.
  intros i rows up stamp. induction rows as [|a rest IH]; intros s; simpl; auto.
  destruct (up (id a)); simpl; [|reflexivity].
  match goal with |- context [sweep_rows rest up stamp ?s2] =>
    specialize (IH s2);
    destruct (sweep_turn i (id a) (stamp (id a)) s _ eq_refl) as (_ & Hw & He)
  end.
  simpl in Hw, He. lia.
Qed.

Definition hits (i : Z) (rows : list row) : nat :=
  List.length (filter (fun r => Z.eqb (id r) i) rows).

Lemma sweep_rows_up :
  forall i rows stamp s,
    let s' := sweep_rows rows (fun _ => true) stamp s in
    db s' = map (fun r => if existsb (fun a => Z.eqb (id r) (id a)) rows
                          then set_status ended r else r) (db s)
    /\ ended_writes i (store_log s') = (ended_writes i (store_log s) + hits i rows)%nat
    /\ ended_events i (published s') = (ended_events i (published s) + hits i rows)%nat.
Proof.
  intros i rows stamp. induction rows as [|a rest IH]; intros s; simpl.
  - repeat split; auto. symmetry. apply map_id.
  - match goal with |- context [sweep_rows rest _ stamp ?s2] =>
      destruct (IH s2) as (Hdb & Hw & He);
      destruct (sweep_turn i (id a) (stamp (id a)) s _ eq_refl) as (Hdb1 & Hw1 & He1)
    end.
    simpl in Hdb1, Hw1, He1.
    rewrite Hdb, Hw, He, Hdb1, Hw1, He1. unfold hits. simpl.
    split; [|destruct (Z.eqb (id a) i); simpl; lia].
    rewrite map_map. apply map_ext. intros r.
    destruct (Z.eqb (id r) (id a)); simpl;
      destruct (existsb (fun x => Z.eqb (id r) (id x)) rest); reflexivity.
Qed.

Lemma hits_NoDup :
  forall a rows, NoDup (map id rows) -> In a rows -> hits (id a) rows = 1%nat.
Proof.
  intros a rows. unfold hits. induction rows as [|b rest IH]; simpl; intros Hnd Hin.
  - contradiction.
  - inversion Hnd as [|x l Hnot Hnd']; subst.
    destruct Hin as [->|Hin].
    + rewrite Z.eqb_refl. simpl. f_equal.
      destruct (filter (fun r => Z.eqb (id r) (id a)) rest) as [|c l] eqn:E; auto.
      exfalso. apply Hnot.
      assert (Hc : In c (filter (fun r => Z.eqb (id r) (id a)) rest))
        by (rewrite E; now left).
      apply filter_In in Hc. destruct Hc as [Hc Heq].
      apply Z.eqb_eq in Heq. rewrite <- Heq. now apply in_map.
    + destruct (Z.eqb_spec (id b) (id a)) as [Heq|Hne]; auto.
      exfalso. apply Hnot. rewrite Heq. now apply in_map.
Qed.

Lemma NoDup_map_filter :
  forall (f : row -> bool) rows, NoDup (map id rows) -> NoDup (map id (filter f rows)).
Proof.
  intros f rows. induction rows as [|b rest IH]; simpl; intros H; auto.
  inversion H as [|x l Hnot Hnd]; subst.
  destruct (f b); simpl; auto.
  constructor; auto.
  intros Hin. apply Hnot. apply in_map_iff in Hin.
  destruct Hin as (c & Hc & Hin). apply filter_In in Hin.
  rewrite <- Hc. apply in_map. tauto.
Qed.

Lemma hits_none :
  forall i rows, (forall r, In r rows -> id r <> i) -> hits i rows = 0%nat.
Proof.
  intros i rows. unfold hits. induction rows as [|b rest IH]; simpl; intros H; auto.
  destruct (Z.eqb_spec (id b) i) as [E|E].
  - exfalso. apply (H b); auto.
  - apply IH. intros r Hr. apply H. auto.
Qed.

Lemma status_of_map :
  forall i (g : row -> bool) d a,
    In a d -> id a = i ->
    (forall r, id r = i -> g r = true) ->
    status_of i (map (fun r => if g r then set_status ended r else r) d) = Some ended.
Proof.
  intros i g d a Hin Hid Hg. unfold status_of.
  induction d as [|b rest IH]; simpl; [contradiction|].
  destruct (Z.eqb_spec (id b) i) as [E|E].
  - rewrite (Hg b E). simpl. apply Z.eqb_eq in E. rewrite E. reflexivity.
  - assert (Hb : Z.eqb (id (if g b then set_status ended b else b)) i = false).
    { destruct (g b); simpl; now apply Z.eqb_neq. }
    rewrite Hb. apply IH. destruct Hin as [->|Hin]; [contradiction|auto].
Qed.

Lemma status_of_stays_ended :
  forall i (g : row -> bool) d,
    status_of i d = Some ended ->
    status_of i (map (fun r => if g r then set_status ended r else r) d) = Some ended.
Proof.
  intros i g d. unfold status_of.
  induction d as [|b rest IH]; simpl; [discriminate|].
  destruct (Z.eqb (id b) i) eqn:E.
  - intros H. destruct (g b); simpl; rewrite E; auto.
  - intros H. destruct (g b); simpl; rewrite E; auto.
Qed.

(** ** Prices under bids handled one after another *)





Lemma id_matches_iff :
  forall q r i,
    Qeq_bool q (inject_Z i) = true ->
    id_matches q r = Z.eqb (id r) i.
Proof.
  intros q r i Hq. unfold id_matches. apply Qeq_bool_iff in Hq.
  destruct (Z.eqb_spec (id r) i) as [E|E].
  - apply Qeq_bool_iff. rewrite E. now symmetry.
  - destruct (Qeq_bool (inject_Z (id r)) q) eqn:B; auto.
    apply Qeq_bool_iff in B. exfalso. apply E.
    apply inject_Z_injective. now rewrite B.
Qed.

Lemma id_matches_other :
  forall q r i,
    Qeq_bool q (inject_Z i) = false -> id r = i -> id_matches q r = false.
Proof.
  intros q r i Hq E. unfold id_matches.
  destruct (Qeq_bool (inject_Z (id r)) q) eqn:B; auto.
  apply Qeq_bool_iff in B. rewrite E in B.
  assert (H : Qeq_bool q (inject_Z i) = true)
    by (apply Qeq_bool_iff; now symmetry).
  congruence.
Qed.


Lemma set_price_keeps_id :
  forall q a r, id (if id_matches q r then set_price a r else r) = id r.
Proof. intros q a r. destruct (id_matches q r); reflexivity. Qed.








(** ** The commit of a bid *)


End Properties.

(** * Properties of the rest of the code *)

Section MoreProperties.

Context {js : Builtins}.

(** ** [Map] and [Set] as the registry uses them *)

Lemma same_value_zero_sym :
  forall a b, same_value_zero a b = true -> same_value_zero b a = true.
Proof.
  intros [x| | |] [y| | |]; simpl; auto. apply Qeq_bool_sym.
Qed.

Lemma same_value_zero_trans :
  forall a b c,
    same_value_zero a b = true -> same_value_zero b c = true ->
    same_value_zero a c = true.
Proof.
  intros [x| | |] [y| | |] [z| | |]; simpl; auto; try discriminate.
  apply Qeq_bool_trans.
Qed.

Lemma same_value_zero_other :
  forall a b c,
    same_value_zero a b = true -> same_value_zero b c = false ->
    same_value_zero a c = false.
Proof.
  intros a b c Hab Hbc. destruct (same_value_zero a c) eqn:E; auto.
  rewrite <- Hbc. symmetry.
  apply same_value_zero_trans with a; auto using same_value_zero_sym.
Qed.

Lemma Map_get_set_other :
  forall k i v m,
    same_value_zero i k = false -> Map_get k (Map_set i v m) = Map_get k m.
Proof.
  intros k i v m Hik. induction m as [|[k' v'] m IH]; simpl.
  - now rewrite Hik.
  - destruct (same_value_zero k' i) eqn:E; simpl; [|now rewrite IH].
    now rewrite (same_value_zero_other k' i k E Hik).
Qed.

Lemma Map_get_delete_other :
  forall k i m,
    same_value_zero i k = false -> Map_get k (Map_delete i m) = Map_get k m.
Proof.
  intros k i m Hik. induction m as [|[k' v'] m IH]; simpl; auto.
  destruct (same_value_zero k' i) eqn:E; simpl; [|now rewrite IH].
  now rewrite (same_value_zero_other k' i k E Hik).
Qed.

Lemma Map_get_key :
  forall k1 k2 m, same_value_zero k1 k2 = true -> Map_get k1 m = Map_get k2 m.
Proof.
  intros k1 k2 m H. induction m as [|[k' v'] m IH]; simpl; auto.
  destruct (same_value_zero k' k1) eqn:E1.
  - now rewrite (same_value_zero_trans k' k1 k2 E1 H).
  - destruct (same_value_zero k' k2) eqn:E2; auto.
    rewrite (same_value_zero_trans k' k2 k1 E2 (same_value_zero_sym _ _ H)) in E1.
    discriminate.
Qed.

Lemma Map_get_none :
  forall k m k' v,
    Map_get k m = None -> In (k', v) m -> same_value_zero k' k = false.
Proof.
  intros k m k' v. induction m as [|[k0 v0] m IH]; simpl; intros Hg Hin.
  - contradiction.
  - destruct (same_value_zero k0 k) eqn:E; [discriminate|].
    destruct Hin as [H|H]; auto. now injection H as <- <-.
Qed.

Lemma Map_get_some :
  forall k m v,
    Map_get k m = Some v -> exists k', In (k', v) m /\ same_value_zero k' k = true.
Proof.
  intros k m v. induction m as [|[k0 v0] m IH]; simpl; intros Hg.
  - discriminate.
  - destruct (same_value_zero k0 k) eqn:E.
    + injection Hg as <-. exists k0. auto.
    + destruct (IH Hg) as (k' & Hin & Hk). exists k'. auto.
Qed.

Lemma Map_set_same :
  forall k v m, Map_get k m = Some v -> Map_set k v m = m.
Proof.
  intros k v m. induction m as [|[k' v'] m IH]; simpl; intros H.
  - discriminate.
  - destruct (same_value_zero k' k).
    + now injection H as <-.
    + now rewrite IH.
Qed.

Lemma Map_delete_set_new :
  forall k v m, Map_get k m = None -> Map_delete k (Map_set k v m) = m.
Proof.
  intros k v m. induction m as [|[k' v'] m IH]; simpl; intros H.
  - now rewrite same_value_zero_refl.
  - destruct (same_value_zero k' k) eqn:E; [discriminate|].
    simpl. rewrite E. now rewrite IH.
Qed.

Lemma In_Map_set :
  forall k v i v0 m,
    keys_distinct m -> In (k, v) (Map_set i v0 m) ->
    (v = v0 /\ same_value_zero k i = true)
    \/ (In (k, v) m /\ same_value_zero k i = false).
Proof.
  intros k v i v0 m. induction m as [|[k' v'] m IH]; simpl; intros Hd Hin.
  - destruct Hin as [H|[]]. injection H as <- <-.
    left. split; auto. apply same_value_zero_refl.
  - destruct Hd as [Hnone Hd].
    destruct (same_value_zero k' i) eqn:E.
    + destruct Hin as [H|H].
      * injection H as <- <-. now left.
      * right. split; auto.
        pose proof (Map_get_none k' m k v Hnone H) as C.
        destruct (same_value_zero k i) eqn:E'; auto.
        rewrite (same_value_zero_trans k i k' E' (same_value_zero_sym _ _ E)) in C.
        discriminate.
    + destruct Hin as [H|H].
      * injection H as <- <-. right. auto.
      * destruct (IH Hd H) as [?|[? ?]]; auto.
Qed.

Lemma In_Map_delete :
  forall k v i m,
    keys_distinct m -> In (k, v) (Map_delete i m) ->
    In (k, v) m /\ same_value_zero k i = false.
Proof.
  intros k v i m. induction m as [|[k' v'] m IH]; simpl; intros Hd Hin.
  - contradiction.
  - destruct Hd as [Hnone Hd].
    destruct (same_value_zero k' i) eqn:E.
    + split; auto.
      pose proof (Map_get_none k' m k v Hnone Hin) as C.
      destruct (same_value_zero k i) eqn:E'; auto.
      rewrite (same_value_zero_trans k i k' E' (same_value_zero_sym _ _ E)) in C.
      discriminate.
    + destruct Hin as [H|H].
      * injection H as <- <-. auto.
      * destruct (IH Hd H). auto.
Qed.

Lemma not_same_sym :
  forall a b, same_value_zero a b = false -> same_value_zero b a = false.
Proof.
  intros a b H. destruct (same_value_zero b a) eqn:E; auto.
  apply same_value_zero_sym in E. congruence.
Qed.

Lemma Map_set_keys_distinct :
  forall i v m, keys_distinct m -> keys_distinct (Map_set i v m).
Proof.
  intros i v m. induction m as [|[k' v'] m IH]; simpl; intros Hd.
  - auto.
  - destruct Hd as [Hnone Hd].
    destruct (same_value_zero k' i) eqn:E; simpl; split; auto.
    rewrite Map_get_set_other; auto using not_same_sym.
Qed.

Lemma Map_delete_keys_distinct :
  forall i m, keys_distinct m -> keys_distinct (Map_delete i m).
Proof.
  intros i m. induction m as [|[k' v'] m IH]; simpl; intros Hd; auto.
  destruct Hd as [Hnone Hd].
  destruct (same_value_zero k' i) eqn:E; simpl; auto. split; auto.
  rewrite Map_get_delete_other; auto using not_same_sym.
Qed.

Lemma In_Set_add : forall c x l, In c (Set_add x l) -> c = x \/ In c l.
Proof.
  intros c x l. unfold Set_add. destruct (Set_has x l); auto.
  intros H. apply in_app_or in H. destruct H as [H|[H|[]]]; auto.
Qed.

Lemma In_Set_delete : forall c x l, In c (Set_delete x l) <-> In c l /\ c <> x.
Proof.
  intros c x l. unfold Set_delete. rewrite filter_In.
  rewrite negb_true_iff, Nat.eqb_neq. tauto.
Qed.

Lemma Set_delete_add :
  forall x l, Set_has x l = false -> Set_delete x (Set_add x l) = l.
Proof.
  intros x l H. unfold Set_add. rewrite H. unfold Set_delete.
  rewrite filter_app. simpl. rewrite Nat.eqb_refl. simpl. rewrite app_nil_r.
  unfold Set_has in H. induction l as [|y l IH]; simpl in *; auto.
  apply orb_false_iff in H. destruct H as [Hy Hl].
  rewrite Nat.eqb_sym, Hy. simpl. now rewrite IH.
Qed.

(** The rooms after a join with a usable id. *)
Lemma joinRoom_rooms :
  forall ws auctionId s,
    truthy_num (Number auctionId) = true ->
    rooms (joinRoom ws auctionId s)
    = Map_set (Number auctionId)
        (Set_add ws (match Map_get (Number auctionId) (rooms s) with
                     | Some set => set
                     | None => []
                     end)) (rooms s).
Proof.
  intros ws a s Hid. unfold joinRoom. rewrite Hid. simpl. unfold Map_has.
  destruct (Map_get (Number a) (rooms s)) as [set|] eqn:E.
  - now rewrite E.
  - now rewrite Map_get_set_same, Map_set_set.
Qed.

(** ** Joins and leaves *)

(** X2. Joining the room a connection is already in changes nothing: the
    rooms, the member lists and every socket are as after the first join. *)
Theorem join_twice_is_join_once :
  forall (ws : conn) (auctionId : jsval) (s : server),
    rooms (joinRoom ws auctionId (joinRoom ws auctionId s))
    = rooms (joinRoom ws auctionId s)
    /\ forall c, sockets (joinRoom ws auctionId (joinRoom ws auctionId s)) c
                 = sockets (joinRoom ws auctionId s) c.
Proof.
  intros ws a s. destruct (truthy_num (Number a)) eqn:Hid.
  - split.
    + rewrite (joinRoom_rooms ws a (joinRoom ws a s) Hid).
      rewrite (joinRoom_rooms ws a s Hid).
      rewrite Map_get_set_same, Map_set_set.
      f_equal. unfold Set_add at 1. now rewrite Set_add_has.
    + intros c. unfold joinRoom. rewrite Hid. simpl.
      destruct (Nat.eqb c ws); reflexivity.
  - unfold joinRoom. rewrite Hid. simpl. auto.
Qed.

(** X3. A join followed by a leave gives back the rooms as they were, when
    the connection was not yet a member of the room it joins (a room that
    exists has members): the room is emptied and deleted again, or loses
    just the connection. The connection then records no room. *)
Theorem join_then_leave_restores_rooms :
  forall (ws : conn) (auctionId : jsval) (s : server),
    truthy_num (Number auctionId) = true ->
    (forall set, Map_get (Number auctionId) (rooms s) = Some set ->
                 set <> [] /\ Set_has ws set = false) ->
    rooms (leaveRoom ws (joinRoom ws auctionId s)) = rooms s
    /\ _auctionId (sockets (leaveRoom ws (joinRoom ws auctionId s)) ws) = None.
Proof.
  intros ws a s Hid Hroom.
  pose proof (joinRoom_rooms ws a s Hid) as Hr.
  destruct (joinRoom_joins ws a s Hid) as (_ & _ & Hsock & _).
  unfold leaveRoom. rewrite Hsock, Hid. simpl. rewrite Nat.eqb_refl. simpl.
  split; auto. rewrite Hr, Map_get_set_same.
  destruct (Map_get (Number a) (rooms s)) as [set|] eqn:E.
  - destruct (Hroom set eq_refl) as [Hne Hnot].
    rewrite (Set_delete_add ws set Hnot).
    destruct set as [|x l]; [congruence|]. simpl.
    rewrite Map_set_set. now apply Map_set_same.
  - assert (Hdel : Set_delete ws (Set_add ws []) = []).
    { apply Set_delete_add. reflexivity. }
    rewrite Hdel. simpl. now apply Map_delete_set_new.
Qed.

(** X4. Leaving twice is leaving once, and a leave by a connection that
    records no room changes nothing. *)
Theorem leave_twice_is_leave_once :
  forall (ws : conn) (s : server),
    leaveRoom ws (leaveRoom ws s) = leaveRoom ws s
    /\ (_auctionId (sockets s ws) = None -> leaveRoom ws s = s).
Proof.
  intros ws s.
  assert (Hfree : forall s1, _auctionId (sockets s1 ws) = None -> leaveRoom ws s1 = s1).
  { intros s1 E. unfold leaveRoom. now rewrite E. }
  split; auto.
  assert (H : leaveRoom ws s = s \/ _auctionId (sockets (leaveRoom ws s) ws) = None).
  { unfold leaveRoom.
    destruct (_auctionId (sockets s ws)) as [i|] eqn:E; auto.
    destruct (negb (truthy_num i)); auto.
    right. simpl. now rewrite Nat.eqb_refl. }
  destruct H as [H|H].
  - now rewrite !H.
  - now apply Hfree.
Qed.

(** A leave keeps, of every room, only members it had before, never the
    connection that leaves. *)
Lemma leaveRoom_members :
  forall ws i s k set c,
    keys_distinct (rooms s) -> memberships_recorded s ->
    _auctionId (sockets s ws) = Some i ->
    In (k, set)
       match Map_get i (rooms s) with
       | Some set0 =>
           if Nat.eqb (List.length (Set_delete ws set0)) 0
           then Map_delete i (rooms s)
           else Map_set i (Set_delete ws set0) (rooms s)
       | None => rooms s
       end ->
    In c set ->
    c <> ws
    /\ exists k0 set0,
         In (k0, set0) (rooms s) /\ In c set0 /\ same_value_zero k0 k = true.
Proof.
  intros ws i s k set c Hd Hrec E Hin Hc.
  assert (Hmine : forall set0, In (k, set0) (rooms s) -> In ws set0 ->
                               same_value_zero k i = true).
  { intros set0 H0 H1. destruct (Hrec ws k set0 H0 H1) as (k' & Hk' & Hs).
    rewrite E in Hk'. injection Hk' as <-. now apply same_value_zero_sym. }
  assert (Hself : In (k, set) (rooms s) -> same_value_zero k i = false ->
                  c <> ws
                  /\ exists k0 set0,
                       In (k0, set0) (rooms s) /\ In c set0
                       /\ same_value_zero k0 k = true).
  { intros H0 Hk. split.
    - intros ->. rewrite (Hmine set H0 Hc) in Hk. discriminate.
    - exists k, set. auto using same_value_zero_refl. }
  destruct (Map_get i (rooms s)) as [set0|] eqn:Eg.
  - destruct (Nat.eqb (List.length (Set_delete ws set0)) 0).
    + apply (In_Map_delete _ _ _ _ Hd) in Hin. destruct Hin as [Hin Hk]. auto.
    + apply (In_Map_set _ _ _ _ _ Hd) in Hin.
      destruct Hin as [[-> Hk]|[Hin Hk]]; auto.
      apply In_Set_delete in Hc. destruct Hc as [Hc Hne]. split; auto.
      destruct (Map_get_some _ _ _ Eg) as (k0 & Hin0 & Hk0).
      exists k0, set0. repeat split; auto.
      apply same_value_zero_trans with i; auto using same_value_zero_sym.
  - apply Hself; auto. now apply (Map_get_none i (rooms s) k set).
Qed.

Lemma run_op_keeps_registry :
  forall o s,
    match o with Join ws _ => _auctionId (sockets s ws) = None | Leave _ => True end ->
    keys_distinct (rooms s) -> memberships_recorded s ->
    keys_distinct (rooms (run_op s o)) /\ memberships_recorded (run_op s o).
Proof.
  intros [ws a|ws] s Hfree Hd Hrec; simpl.
  - destruct (truthy_num (Number a)) eqn:Hid;
      [|unfold joinRoom; rewrite Hid; simpl; auto].
    pose proof (joinRoom_rooms ws a s Hid) as Hr.
    destruct (joinRoom_joins ws a s Hid) as (_ & _ & Hsock & _).
    split; [rewrite Hr; now apply Map_set_keys_distinct|].
    intros c k set Hin Hc. rewrite Hr in Hin.
    assert (Hother : c <> ws -> sockets (joinRoom ws a s) c = sockets s c).
    { intros Hne. unfold joinRoom. rewrite Hid. simpl.
      apply Nat.eqb_neq in Hne. now rewrite Hne. }
    assert (Hold : forall k0 set0, In (k0, set0) (rooms s) -> In c set0 -> c <> ws).
    { intros k0 set0 H0 H1 ->. destruct (Hrec ws k0 set0 H0 H1) as (k' & Hk' & _).
      congruence. }
    apply (In_Map_set k set _ _ _ Hd) in Hin.
    destruct Hin as [[-> Hk]|[Hin _]].
    + apply In_Set_add in Hc. destruct Hc as [->|Hc].
      * exists (Number a). split; auto. now apply same_value_zero_sym.
      * destruct (Map_get (Number a) (rooms s)) as [set0|] eqn:E; [|contradiction].
        destruct (Map_get_some _ _ _ E) as (k0 & Hin0 & Hk0).
        rewrite (Hother (Hold k0 set0 Hin0 Hc)).
        destruct (Hrec c k0 set0 Hin0 Hc) as (k' & Hk' & Hs).
        exists k'. split; auto.
        apply same_value_zero_trans with k0; auto.
        apply same_value_zero_trans with (Number a); auto using same_value_zero_sym.
    + rewrite (Hother (Hold k set Hin Hc)). eauto.
  - unfold leaveRoom.
    destruct (_auctionId (sockets s ws)) as [i|] eqn:E; auto.
    destruct (negb (truthy_num i)) eqn:Hi; auto. simpl.
    split.
    + destruct (Map_get i (rooms s)) as [set0|]; auto.
      destruct (Nat.eqb (List.length (Set_delete ws set0)) 0);
        auto using Map_delete_keys_distinct, Map_set_keys_distinct.
    + intros c k set Hin Hc. simpl in Hin.
      destruct (leaveRoom_members ws i s k set c Hd Hrec E Hin Hc)
        as (Hne & k0 & set0 & Hin0 & Hc0 & Hk0).
      simpl. apply Nat.eqb_neq in Hne. rewrite Hne.
      destruct (Hrec c k0 set0 Hin0 Hc0) as (k' & Hk' & Hs).
      exists k'. split; auto. now apply same_value_zero_trans with k0.
Qed.

Lemma filter_none :
  forall (A : Type) (f : A -> bool) (l : list A),
    (forall x, In x l -> f x = false) -> filter f l = [].
Proof.
  intros A f l. induction l as [|x l IH]; simpl; intros H; auto.
  rewrite (H x (or_introl eq_refl)). apply IH. intros y Hy. apply H. now right.
Qed.

Lemma rooms_of_at_most_one :
  forall c s,
    keys_distinct (rooms s) -> memberships_recorded s ->
    (List.length (rooms_of c (rooms s)) <= 1)%nat.
Proof.
  intros c s Hd Hrec. unfold rooms_of. rewrite length_map.
  unfold memberships_recorded in Hrec.
  revert Hd Hrec. generalize (sockets s). induction (rooms s) as [|[k set] m IH];
    intros socks Hd Hrec; simpl; auto.
  destruct Hd as [Hnone Hd].
  destruct (Set_has c set) eqn:Hc; simpl.
  - rewrite filter_none; auto.
    intros [k2 set2] Hin2. simpl.
    destruct (Set_has c set2) eqn:Hc2; auto. exfalso.
    apply Set_has_In in Hc, Hc2.
    destruct (Hrec c k set (or_introl eq_refl) Hc) as (k1 & Hk1 & Hs1).
    destruct (Hrec c k2 set2 (or_intror Hin2) Hc2) as (k1' & Hk1' & Hs2).
    rewrite Hk1 in Hk1'. injection Hk1' as <-.
    pose proof (Map_get_none k m k2 set2 Hnone Hin2) as C.
    rewrite (same_value_zero_trans k2 k1 k (same_value_zero_sym _ _ Hs2) Hs1) in C.
    discriminate.
  - apply IH with socks; auto. intros c0 k0 set0 H0. apply Hrec. now right.
Qed.

(** X5. When connections join only while they record no room, every
    connection is a member of at most one room after any sequence of joins
    and leaves on a fresh registry, and that room is the one its
    [_auctionId] records. *)
Theorem single_room_when_joins_are_first :
  forall (ops : list registry_op) (s : server),
    rooms s = [] ->
    joins_when_free ops s ->
    forall c,
      (List.length (rooms_of c (rooms (fold_left run_op ops s))) <= 1)%nat
      /\ forall k,
           In k (rooms_of c (rooms (fold_left run_op ops s))) ->
           exists k', _auctionId (sockets (fold_left run_op ops s) c) = Some k'
                      /\ same_value_zero k' k = true.
Proof.
  intros ops s Hempty Hfree.
  assert (Hinv : keys_distinct (rooms s) /\ memberships_recorded s).
  { unfold memberships_recorded. rewrite Hempty. simpl. split; auto.
    intros c k set []. }
  clear Hempty. revert s Hfree Hinv.
  induction ops as [|o ops IH]; intros s Hfree [Hd Hrec] c; simpl.
  - split; [now apply rooms_of_at_most_one|].
    intros k Hk. unfold rooms_of in Hk. apply in_map_iff in Hk.
    destruct Hk as ([k0 set] & <- & Hin). apply filter_In in Hin.
    destruct Hin as [Hin Hc]. simpl in Hc. apply Set_has_In in Hc.
    exact (Hrec c k0 set Hin Hc).
  - destruct Hfree as [Ho Hrest].
    apply IH; auto. now apply run_op_keeps_registry.
Qed.

(** ** Broadcasts *)

(** X6. [broadcastToAuction] sends the payload to the members of the room
    of the id whose socket is open, and to nobody else: nothing is sent for
    an id that reads as 0 or NaN or has no room, a member whose socket is
    not open is skipped, and what was sent before stays. *)
Theorem broadcast_reaches_open_members :
  forall (auctionId : jsval) (payload : message) (s : server) (c : conn) (m : message),
    In (c, m) (sent (broadcastToAuction auctionId payload s))
    <-> In (c, m) (sent s)
        \/ (m = payload
            /\ truthy_num (Number auctionId) = true
            /\ member c (Number auctionId) (rooms s) = true
            /\ readyState (sockets s c) = OPEN).
Proof.
  intros a p s c m. unfold broadcastToAuction, member. simpl.
  destruct (truthy_num (Number a)); simpl.
  - destruct (Map_get (Number a) (rooms s)) as [set|]; simpl.
    + rewrite in_app_iff. unfold deliver. rewrite in_map_iff. simpl.
      split.
      * intros [H|(x & Hx & Hin)]; auto. right.
        injection Hx as -> ->. apply filter_In in Hin. destruct Hin as [Hin Ho].
        repeat split; auto.
        -- now apply Set_has_In.
        -- destruct (readyState (sockets s c)); simpl in Ho; congruence.
      * intros [H|(-> & _ & Hc & Ho)]; auto. right.
        exists c. split; auto. apply filter_In. split.
        -- now apply Set_has_In.
        -- now rewrite Ho.
    + split; auto. intros [H|(_ & _ & H & _)]; auto. discriminate.
  - split; auto. intros [H|(_ & H & _)]; auto. discriminate.
Qed.

(** X7. The [bidUpdate] of an accepted bid is sent to exactly the
    connections that are members of the room of the auction bid on and
    whose socket is open; members of other rooms receive nothing from it. *)
Theorem bid_update_goes_to_the_room :
  forall (req : bid_request) (now now' : Z) (select_up update_up : bool)
         (s s' : server) (p : message),
    bid_handler req now now' select_up update_up s = (Accepted p, s') ->
    forall c m,
      In (c, m) (sent s')
      <-> In (c, m) (sent s)
          \/ (m = p
              /\ member c (Number (JStr (params_id req))) (rooms s) = true
              /\ readyState (sockets s c) = OPEN).
Proof.
  intros req now now' su uu s s' p E c m.
  apply bid_handler_accepted_open in E.
  destruct E as (q & a & auction & s1 & Hid & Ht & _ & _ & _ & _ & Hup & ->).
  injection Hup as <-.
  rewrite broadcast_reaches_open_members. rewrite Hid.
  cbn [Number rooms sockets sent with_store_log with_db].
  rewrite Ht. tauto.
Qed.

(** ** The sweeper and the life of a row *)

(** X8. After a tick on which the store answers, no auction is left that
    is past its end (to the second of the tick) and not [ended]: the same
    query comes back empty. *)
Theorem sweep_leaves_no_expired :
  forall (now : Z) (stamp : Z -> Z) (s : server),
    select_expired true (formatDateTime now)
      (db (sweep now true (fun _ => true) stamp s)) = Some [].
Proof.
  intros now stamp s. unfold sweep, select_expired.
  set (expired := fun r : row =>
         negb (status_eqb (row_status r) ended)
         && Z.leb (end_time r) (formatDateTime now)).
  destruct (sweep_rows_up 0%Z (filter expired (db s)) stamp s) as (Hdb & _).
  rewrite Hdb. f_equal. apply filter_none.
  intros r' Hin. apply in_map_iff in Hin. destruct Hin as (r & <- & Hr).
  destruct (existsb (fun a => Z.eqb (id r) (id a)) (filter expired (db s))) eqn:Ex.
  - reflexivity.
  - destruct (expired r) eqn:Er; auto.
    assert (Hex : existsb (fun a => Z.eqb (id r) (id a)) (filter expired (db s)) = true).
    { apply existsb_exists. exists r. split; [|apply Z.eqb_refl].
      apply filter_In. auto. }
    congruence.
Qed.

Lemma sweep_rows_frame :
  forall rows update_up stamp s,
    let s' := sweep_rows rows update_up stamp s in
    map row_identity (db s') = map row_identity (db s)
    /\ map current_price (db s') = map current_price (db s)
    /\ rooms s' = rooms s
    /\ sockets s' = sockets s
    /\ forall i, status_of i (db s) = Some ended -> status_of i (db s') = Some ended.
Proof.
  induction rows as [|a rest IH]; intros up stamp s; simpl.
  - repeat split; auto.
  - destruct (up (id a)); simpl; [|repeat split; auto].
    match goal with |- context [sweep_rows rest up stamp ?s2] =>
      destruct (IH up stamp s2) as (Hid & Hp & Hr & Hs & He);
      destruct (broadcast_frame (JNum (num_of_Z (id a)))
                  (auctionEnded (num_of_Z (id a)) (stamp (id a)))
                  (with_store_log (store_log s ++ [SetStatus (id a) ended])
                     (with_db (map (fun r => if Z.eqb (id r) (id a)
                                             then set_status ended r else r) (db s)) s)))
        as (Hdb & _ & Hrooms & Hsock & _)
    end.
    simpl in Hdb, Hrooms, Hsock.
    rewrite Hid, Hp, Hr, Hs, Hdb, Hrooms, Hsock.
    repeat split; auto.
    + rewrite map_map. apply map_ext. intros r.
      destruct (Z.eqb (id r) (id a)); reflexivity.
    + rewrite map_map. apply map_ext. intros r.
      destruct (Z.eqb (id r) (id a)); reflexivity.
    + intros i Hi. apply He. rewrite Hdb. now apply status_of_stays_ended.
Qed.

Lemma count_in_set :
  forall c l,
    NoDup l ->
    List.length (filter (fun x => Nat.eqb x c) l) = if Set_has c l then 1%nat else 0%nat.
Proof.
  intros c l. unfold Set_has. induction l as [|x l IH]; intros Hnd; simpl; auto.
  inversion Hnd as [|y l' Hnot Hnd']; subst.
  rewrite (Nat.eqb_sym c x).
  destruct (Nat.eqb_spec x c) as [->|Hne]; simpl.
  - rewrite (IH Hnd').
    destruct (existsb (Nat.eqb c) l) eqn:E; auto.
    exfalso. apply Hnot. apply existsb_exists in E.
    destruct E as (y & Hy & Heq). apply Nat.eqb_eq in Heq. now subst.
  - now apply IH.
Qed.

Lemma Set_has_filter :
  forall c (f : conn -> bool) l, Set_has c (filter f l) = Set_has c l && f c.
Proof.
  intros c f l. unfold Set_has. induction l as [|x l IH]; simpl; auto.
  destruct (f x) eqn:Ef; simpl; rewrite IH;
    destruct (Nat.eqb_spec c x) as [->|Hne]; simpl;
    try rewrite Ef; try reflexivity; now rewrite andb_false_r.
Qed.

(** The frames of one [auctionEnded] broadcast, counted per connection. *)
Lemma broadcast_ended_frames :
  forall c i j t s,
    sets_distinct (rooms s) ->
    ended_frames c i
      (sent (broadcastToAuction (JNum (num_of_Z j)) (auctionEnded (num_of_Z j) t) s))
    = (ended_frames c i (sent s)
       + (if Z.eqb j i && reaches c j s then 1 else 0))%nat.
Proof.
  intros c i j t s Hsets. unfold broadcastToAuction, reaches, member.
  cbn [Number rooms sockets sent with_published].
  destruct (truthy_num (num_of_Z j)); cbn [negb andb];
    [|cbn [sent with_published]; rewrite andb_false_r; lia].
  destruct (Map_get (num_of_Z j) (rooms s)) as [set|] eqn:E;
    [|cbn [sent with_published andb]; rewrite andb_false_r; lia].
  assert (Hnd : NoDup set).
  { apply Map_get_some in E. destruct E as (k' & Hin & _).
    unfold sets_distinct in Hsets. rewrite Forall_forall in Hsets.
    exact (Hsets _ Hin). }
  cbn [sent with_sent with_published]. unfold ended_frames, deliver.
  rewrite filter_app, length_app. f_equal.
  cbn [sockets with_published].
  set (live := filter (fun c0 => is_open (readyState (sockets s c0))) set).
  assert (Hcount : forall l,
            List.length
              (filter (fun f => Nat.eqb (fst f) c
                                && match snd f with
                                   | auctionEnded a _ => same_value_zero a (num_of_Z i)
                                   | _ => false
                                   end)
                 (map (fun c0 => (c0, auctionEnded (num_of_Z j) t)) l))
            = if Z.eqb j i then List.length (filter (fun x => Nat.eqb x c) l)
              else 0%nat).
  { destruct (Z.eqb j i) eqn:Eji;
      induction l as [|x l IH]; cbn [map filter fst snd]; auto;
      rewrite num_of_Z_same, Eji.
    - rewrite andb_true_r. destruct (Nat.eqb x c); cbn [List.length]; now rewrite IH.
    - rewrite andb_false_r. exact IH. }
  rewrite Hcount.
  destruct (Z.eqb j i); cbn [andb]; auto.
  rewrite (count_in_set c live) by (now apply NoDup_filter).
  unfold live. rewrite Set_has_filter. reflexivity.
Qed.

Lemma swept_all : forall rows, swept rows (fun _ => true) = rows.
Proof. induction rows as [|a rest IH]; simpl; congruence. Qed.

(** The frames of the loop of a tick, counted per connection. *)
Lemma sweep_rows_frames :
  forall c i rows update_up stamp s,
    sets_distinct (rooms s) ->
    ended_frames c i (sent (sweep_rows rows update_up stamp s))
    = (ended_frames c i (sent s)
       + (if reaches c i s then hits i (swept rows update_up) else 0))%nat.
Proof.
  intros c i rows up stamp. induction rows as [|a rest IH]; intros s Hsets; simpl.
  - unfold hits. simpl. destruct (reaches c i s); lia.
  - destruct (up (id a)); simpl.
    + set (s1 := with_store_log (store_log s ++ [SetStatus (id a) ended])
                   (with_db (map (fun r => if Z.eqb (id r) (id a)
                                           then set_status ended r else r) (db s)) s)).
      set (s2 := broadcastToAuction (JNum (num_of_Z (id a)))
                   (auctionEnded (num_of_Z (id a)) (stamp (id a))) s1).
      destruct (broadcast_frame (JNum (num_of_Z (id a)))
                  (auctionEnded (num_of_Z (id a)) (stamp (id a))) s1)
        as (_ & _ & Hrooms & Hsock & _).
      fold s2 in Hrooms, Hsock.
      change (rooms s1) with (rooms s) in Hrooms.
      change (sockets s1) with (sockets s) in Hsock.
      assert (Hsets2 : sets_distinct (rooms s2)) by (now rewrite Hrooms).
      rewrite (IH s2 Hsets2).
      assert (Hreach : forall k, reaches c k s2 = reaches c k s)
        by (intros k; unfold reaches; now rewrite Hrooms, Hsock).
      rewrite Hreach.
      unfold s2. rewrite (broadcast_ended_frames c i (id a) (stamp (id a)) s1 Hsets).
      change (sent s1) with (sent s).
      assert (Hreach1 : reaches c (id a) s1 = reaches c (id a) s) by reflexivity.
      rewrite Hreach1. unfold hits. simpl.
      destruct (Z.eqb_spec (id a) i) as [->|Hne]; simpl;
        destruct (reaches c i s); lia.
    + unfold hits. simpl. destruct (reaches c i s); lia.
Qed.

(** X25. Two ticks of the sweeper, the second after the first has
    finished, the store answering: an auction that is past its end and not
    yet [ended] is moved to [ended] by exactly one UPDATE and its end is
    broadcast exactly once, both by the first tick, and it is sent once to
    each open member of its room and to nobody else; the second tick finds
    the row [ended], so it neither writes nor broadcasts nor sends for it.
    In every tick, whatever the store does, each broadcast follows an
    executed UPDATE of the same auction; and a tick writes and broadcasts
    nothing for an auction whose row is [ended] when the tick reads the
    table. (Ids are unique and a room lists a connection once.) *)
Theorem sweep_twice_ends_once :
  forall (now now' : Z) (stamp stamp' : Z -> Z) (s : server) (a : row),
    NoDup (map id (db s)) ->
    sets_distinct (rooms s) ->
    In a (db s) ->
    row_status a <> ended ->
    (end_time a <= formatDateTime now)%Z ->
    let s1 := sweep now true (fun _ => true) stamp s in
    let s2 := sweep now' true (fun _ => true) stamp' s1 in
    (status_of (id a) (db s1) = Some ended
     /\ ended_writes (id a) (store_log s1) = S (ended_writes (id a) (store_log s))
     /\ ended_events (id a) (published s1) = S (ended_events (id a) (published s))
     /\ forall c, ended_frames c (id a) (sent s1)
                  = (ended_frames c (id a) (sent s)
                     + (if reaches c (id a) s then 1 else 0))%nat)
    /\ (status_of (id a) (db s2) = Some ended
        /\ ended_writes (id a) (store_log s2) = ended_writes (id a) (store_log s1)
        /\ ended_events (id a) (published s2) = ended_events (id a) (published s1)
        /\ forall c, ended_frames c (id a) (sent s2) = ended_frames c (id a) (sent s1))
    /\ (forall t select_up update_up st s0,
          (ended_writes (id a) (store_log (sweep t select_up update_up st s0))
           + ended_events (id a) (published s0)
           = ended_writes (id a) (store_log s0)
             + ended_events (id a) (published (sweep t select_up update_up st s0)))%nat)
    /\ (forall t st s0,
          (forall r, In r (db s0) -> id r = id a -> row_status r = ended) ->
          ended_writes (id a) (store_log (sweep t true (fun _ => true) st s0))
          = ended_writes (id a) (store_log s0)
          /\ ended_events (id a) (published (sweep t true (fun _ => true) st s0))
             = ended_events (id a) (published s0)).
Proof.
  intros now now' stamp stamp' s a Hnd Hsets Hin Hst Hexp s1 s2.
  set (expired := fun t (r : row) =>
         negb (status_eqb (row_status r) ended) && Z.leb (end_time r) (formatDateTime t)).
  assert (Hs1 : s1 = sweep_rows (filter (expired now) (db s)) (fun _ => true) stamp s)
    by reflexivity.
  assert (Hs2 : s2 = sweep_rows (filter (expired now') (db s1)) (fun _ => true) stamp' s1)
    by reflexivity.
  assert (Ha : In a (filter (expired now) (db s))).
  { apply filter_In. split; auto. unfold expired.
    apply andb_true_iff. split; [|now apply Z.leb_le].
    destruct (row_status a); simpl; congruence. }
  destruct (sweep_rows_up (id a) (filter (expired now) (db s)) stamp s)
    as (Hdb1 & Hw1 & He1).
  rewrite <- Hs1 in Hdb1, Hw1, He1.
  rewrite (hits_NoDup a _ (NoDup_map_filter _ _ Hnd) Ha) in Hw1, He1.
  assert (Hf1 : forall c, ended_frames c (id a) (sent s1)
                          = (ended_frames c (id a) (sent s)
                             + (if reaches c (id a) s then 1 else 0))%nat).
  { intros c.
    rewrite Hs1, (sweep_rows_frames c (id a) _ (fun _ => true) stamp s Hsets).
    now rewrite swept_all, (hits_NoDup a _ (NoDup_map_filter _ _ Hnd) Ha). }
  assert (Hended1 : forall r, In r (db s1) -> id r = id a -> row_status r = ended).
  { intros r Hr Hid. rewrite Hdb1 in Hr. apply in_map_iff in Hr.
    destruct Hr as (r0 & Hr0 & _).
    assert (Hex : existsb (fun x => Z.eqb (id r0) (id x)) (filter (expired now) (db s))
                  = true).
    { apply existsb_exists. exists a. split; auto. apply Z.eqb_eq.
      rewrite <- Hid, <- Hr0. destruct (existsb _ _); reflexivity. }
    rewrite Hex in Hr0. now subst r. }
  assert (Hstat1 : status_of (id a) (db s1) = Some ended).
  { rewrite Hdb1. apply status_of_map with (a := a); auto.
    intros r Hr. apply existsb_exists. exists a. split; auto. now apply Z.eqb_eq. }
  assert (Hnone : forall t s0,
             (forall r, In r (db s0) -> id r = id a -> row_status r = ended) ->
             hits (id a) (filter (expired t) (db s0)) = 0%nat).
  { intros t s0 Hall. apply hits_none. intros r Hr Hid. apply filter_In in Hr.
    destruct Hr as [Hr Hx].
    unfold expired in Hx. rewrite (Hall r Hr Hid) in Hx. discriminate. }
  assert (Hskip : forall t st s0,
             (forall r, In r (db s0) -> id r = id a -> row_status r = ended) ->
             ended_writes (id a) (store_log (sweep t true (fun _ => true) st s0))
             = ended_writes (id a) (store_log s0)
             /\ ended_events (id a) (published (sweep t true (fun _ => true) st s0))
                = ended_events (id a) (published s0)).
  { intros t st s0 Hall.
    destruct (sweep_rows_up (id a) (filter (expired t) (db s0)) st s0)
      as (_ & Hw & He).
    rewrite (Hnone t s0 Hall) in Hw, He. simpl in Hw, He.
    unfold sweep, select_expired. fold (expired t). split; lia. }
  destruct (sweep_rows_up (id a) (filter (expired now') (db s1)) stamp' s1)
    as (Hdb2 & _ & _).
  rewrite <- Hs2 in Hdb2.
  destruct (Hskip now' stamp' s1 Hended1) as (Hw2 & He2).
  fold s2 in Hw2, He2.
  assert (Hsets1 : sets_distinct (rooms s1)).
  { rewrite Hs1.
    destruct (sweep_rows_frame (filter (expired now) (db s)) (fun _ => true) stamp s)
      as (_ & _ & Hr & _). now rewrite Hr. }
  assert (Hf2 : forall c, ended_frames c (id a) (sent s2)
                          = ended_frames c (id a) (sent s1)).
  { intros c.
    rewrite Hs2, (sweep_rows_frames c (id a) _ (fun _ => true) stamp' s1 Hsets1).
    rewrite swept_all, (Hnone now' s1 Hended1). destruct (reaches c (id a) s1); lia. }
  split; [|split; [|split]].
  - split; [exact Hstat1|]. split; [lia|]. split; [lia|exact Hf1].
  - split; [|split; [exact Hw2|split; [exact He2|exact Hf2]]].
    rewrite Hdb2. now apply status_of_stays_ended.
  - intros t su uu st s0. unfold sweep, select_expired.
    destruct su; [apply sweep_rows_paired|lia].
  - exact Hskip.
Qed.

Lemma find_first_filter :
  forall (f g : row -> bool) d a,
    (forall r, f r = g r) ->
    firstn 1 (filter f d) = [a] -> find g d = Some a.
Proof.
  intros f g d a Hfg. induction d as [|r d IH]; simpl; [discriminate|].
  rewrite <- Hfg. destruct (f r); simpl; auto. congruence.
Qed.

Lemma status_of_other_write :
  forall i q a d,
    Qeq_bool q (inject_Z i) = false ->
    status_of i (map (fun r => if id_matches q r then set_price a r else r) d)
    = status_of i d.
Proof.
  intros i q a d Hq. unfold status_of.
  induction d as [|r d IH]; simpl; auto.
  rewrite set_price_keeps_id.
  destruct (Z.eqb_spec (id r) i) as [E|E]; auto.
  now rewrite (id_matches_other q r i Hq E).
Qed.

Lemma on_message_db :
  forall ws parsed now su s, db (on_message ws parsed now su s) = db s.
Proof.
  intros ws parsed now su s.
  unfold on_message. destruct parsed as [data|]; auto.
  destruct (is_string (prop (or_empty data) "type") "joinAuction"); auto.
  set (i := Number (prop (or_empty (prop (or_empty data) "payload")) "auctionId")).
  destruct (truthy_num i) eqn:Hi; simpl; auto.
  assert (Hnum : truthy_num (Number (JNum i)) = true) by exact Hi.
  destruct (joinRoom_joins ws (JNum i) s Hnum) as (_ & _ & _ & _ & Hj).
  destruct (select_by_id su i (db (joinRoom ws (JNum i) s))) as [[|r l]|]; auto.
  destruct (is_open (readyState (sockets (joinRoom ws (JNum i) s) ws))); auto.
Qed.

Lemma on_close_db : forall ws s, db (on_close ws s) = db s.
Proof.
  intros ws s. unfold on_close, leaveRoom.
  destruct (_auctionId (sockets s ws)) as [i|]; auto.
  destruct (negb (truthy_num i)); auto.
Qed.

(** What one whole operation leaves alone. *)
Lemma run_server_op_frame :
  forall o s,
    map row_identity (db (run_server_op s o)) = map row_identity (db s)
    /\ forall i, status_of i (db s) = Some ended ->
                 status_of i (db (run_server_op s o)) = Some ended.
Proof.
  intros [c|now su uu stamp|ws parsed now su|ws] s; simpl.
  - unfold run_call.
    destruct (bid_handler (call_req c) (call_now c) (call_now' c)
                (call_select_up c) (call_update_up c) s) as [[f|p] s'] eqn:E; simpl.
    + apply bid_handler_rejected in E. subst. auto.
    + apply bid_handler_accepted_open in E.
      destruct E as (q & a & auction & s1 & _ & _ & _ & Hres & Hst & _ & Hup & ->).
      injection Hup as <-.
      match goal with |- context [broadcastToAuction ?x ?m ?s1] =>
        destruct (broadcast_frame x m s1) as (Hdb & _)
      end.
      rewrite Hdb. simpl. split.
      * rewrite map_map. apply map_ext. intros r.
        destruct (id_matches q r); reflexivity.
      * intros i Hi.
        destruct (Qeq_bool q (inject_Z i)) eqn:Eq.
        -- exfalso. apply Hst.
           assert (Hf : find (fun r => Z.eqb (id r) i) (db s) = Some auction).
           { apply find_first_filter with (f := id_matches q).
             - intros r. now apply id_matches_iff.
             - exact Hres. }
           unfold status_of in Hi. rewrite Hf in Hi. congruence.
        -- now rewrite status_of_other_write.
  - unfold sweep. destruct (select_expired su (formatDateTime now) (db s)); auto.
    destruct (sweep_rows_frame l uu stamp s) as (Hid & _ & _ & _ & He). auto.
  - rewrite on_message_db. auto.
  - rewrite on_close_db. auto.
Qed.

(** X9. No operation of the server creates or deletes an auction or changes
    the id, the name or the window of one: after any sequence of bids,
    sweeper ticks, messages and disconnections the table lists the same
    auctions in the same order. *)
Theorem auctions_are_never_created_or_deleted :
  forall (ops : list server_op) (s : server),
    map row_identity (db (run_server_ops ops s)) = map row_identity (db s).
Proof.
  intros ops. unfold run_server_ops.
  induction ops as [|o ops IH]; intros s; simpl; auto.
  rewrite IH. apply run_server_op_frame.
Qed.

(** X10. [ended] is final when operations do not overlap: once the row of
    an auction says [ended], it says so after any sequence of bids, ticks,
    messages and disconnections, each run to its end before the next. *)
Theorem ended_is_final :
  forall (ops : list server_op) (s : server) (i : Z),
    status_of i (db s) = Some ended ->
    status_of i (db (run_server_ops ops s)) = Some ended.
Proof.
  intros ops. unfold run_server_ops.
  induction ops as [|o ops IH]; intros s i H; simpl; auto.
  apply IH. now apply run_server_op_frame.
Qed.

(** X11. A tick of the sweeper changes no price, no room and no socket,
    whatever the store does: it only sets statuses. *)
Theorem sweep_changes_only_statuses :
  forall (now : Z) (select_up : bool) (update_up : Z -> bool) (stamp : Z -> Z)
         (s : server),
    map current_price (db (sweep now select_up update_up stamp s))
    = map current_price (db s)
    /\ rooms (sweep now select_up update_up stamp s) = rooms s
    /\ sockets (sweep now select_up update_up stamp s) = sockets s.
Proof.
  intros now su uu stamp s. unfold sweep.
  destruct (select_expired su (formatDateTime now) (db s)) as [rows|]; auto.
  destruct (sweep_rows_frame rows uu stamp s) as (_ & Hp & Hr & Hs & _). auto.
Qed.

(** ** The message handler *)

(** X12. A WebSocket message never writes to the store and never
    publishes; it sends at most one message, an [auctionData] snapshot of a
    row of the table, to the connection it came from; it leaves the fields
    of every other connection alone; and a message that is not JSON, or
    whose [type] is not ["joinAuction"], changes nothing at all. *)
Theorem message_touches_only_its_connection :
  forall (ws : conn) (parsed : option jsval) (now : Z) (select_up : bool) (s : server),
    let s' := on_message ws parsed now select_up s in
    db s' = db s
    /\ published s' = published s
    /\ store_log s' = store_log s
    /\ (sent s' = sent s
        \/ exists r, In r (db s) /\ sent s' = sent s ++ [(ws, auctionData r now)])
    /\ (forall c, c <> ws -> sockets s' c = sockets s c)
    /\ (parsed = None -> s' = s)
    /\ (forall data, parsed = Some data ->
                     is_string (prop (or_empty data) "type") "joinAuction" = false ->
                     s' = s).
Proof.
  intros ws parsed now su s s'. subst s'.
  split; [apply on_message_db|].
  unfold on_message. destruct parsed as [data|]; [|repeat split; eauto; discriminate].
  destruct (is_string (prop (or_empty data) "type") "joinAuction") eqn:Ety;
    [|repeat split; eauto].
  set (i := Number (prop (or_empty (prop (or_empty data) "payload")) "auctionId")).
  assert (H1 : forall x : server, Some data = None -> x = s) by discriminate.
  assert (H2 : forall (x : server) d,
            Some data = Some d ->
            is_string (prop (or_empty d) "type") "joinAuction" = false -> x = s).
  { intros x d Hd Hf. injection Hd as <-. congruence. }
  destruct (truthy_num i) eqn:Hi; simpl.
  - assert (Hnum : truthy_num (Number (JNum i)) = true) by exact Hi.
    destruct (joinRoom_joins ws (JNum i) s Hnum) as (_ & _ & _ & Hsent & Hdb).
    assert (Hj : published (joinRoom ws (JNum i) s) = published s
                 /\ store_log (joinRoom ws (JNum i) s) = store_log s
                 /\ forall c, c <> ws -> sockets (joinRoom ws (JNum i) s) c = sockets s c).
    { unfold joinRoom. rewrite Hnum. simpl. repeat split; eauto.
      intros c Hc. apply Nat.eqb_neq in Hc. now rewrite Hc. }
    destruct Hj as (Hpub & Hlog & Hsock).
    set (s1 := joinRoom ws (JNum i) s) in *.
    rewrite resolved_select, Hdb.
    destruct (su && is_finite i); [|repeat split; eauto].
    destruct (resolved i (db s)) as [|r rest] eqn:Eres; [repeat split; eauto|].
    destruct (is_open (readyState (sockets s1 ws))); [|repeat split; eauto].
    simpl. rewrite Hsent. repeat split; eauto.
    right. exists r. split; auto.
    unfold resolved in Eres. destruct i as [q| | |]; try discriminate.
    assert (Hf : In r (filter (id_matches q) (db s))).
    { destruct (filter (id_matches q) (db s)); simpl in Eres; [discriminate|].
      injection Eres as -> _. now left. }
    apply filter_In in Hf. tauto.
  - repeat split; eauto.
Qed.

(** ** The detail endpoint *)

Lemma resolved_after_write :
  forall q a d,
    resolved (Fin q) (map (fun r => if id_matches q r then set_price a r else r) d)
    = map (set_price a) (resolved (Fin q) d).
Proof.
  intros q a d. unfold resolved.
  induction d as [|r d IH]; simpl; auto.
  destruct (id_matches q r) eqn:E.
  - assert (E' : id_matches q (set_price a r) = true) by exact E.
    rewrite E'. reflexivity.
  - rewrite E. exact IH.
Qed.

(** X13. Read your write: after an accepted bid, the detail endpoint asked
    for the same id answers 200 with the row of the auction at the amount
    that was bid as the price column stores it (rounded to two places, so a
    bid of 100.004 is shown as 100), and with status [running]; id, name
    and window are those of the row before the bid. *)
Theorem detail_shows_the_accepted_bid :
  forall (req : bid_request) (now now' t : Z) (select_up update_up : bool)
         (s s' : server) (p : message),
    bid_handler req now now' select_up update_up s = (Accepted p, s') ->
    exists r a old,
      auction_detail (params_id req) t true s' = detail_200 r t
      /\ prop (or_empty (body req)) "amount" = JNum (Fin a)
      /\ stored_as a (current_price r)
      /\ row_status r = running
      /\ auction_detail (params_id req) t true s = detail_200 old t
      /\ row_identity r = row_identity old.
Proof.
  intros req now now' t su uu s s' p E.
  pose proof (bid_handler_accepted_open _ _ _ _ _ _ _ _ E) as Hopen.
  destruct Hopen as (q & a & auction & s1 & Hid & Ht & Ha & Hres & _ & _ & Hup & ->).
  pose proof (bid_handler_accepted_positive _ _ _ _ _ _ _ _ _ E Ha) as Hpos.
  unfold update_price in Hup. injection Hup as <-.
  exists (set_price (decimal_10_2 a) auction), a, auction.
  unfold auction_detail. rewrite Hid, Ht. simpl negb. cbv iota.
  rewrite !resolved_select. simpl andb. cbv iota.
  match goal with |- context [broadcastToAuction ?x ?m ?s1] =>
    destruct (broadcast_frame x m s1) as (Hdb & _)
  end.
  rewrite Hdb. simpl db. rewrite resolved_after_write, Hres. simpl.
  repeat split; auto. now apply decimal_10_2_stored.
Qed.

(** X14. The two endpoints agree on which auctions exist: for a request
    that passes the screening of the bid endpoint, with the store
    answering, the bid is refused as NotFound exactly when the detail
    endpoint answers 404 for the same id; and the detail endpoint answers
    400 exactly when the id reads as 0 or NaN. *)
Theorem detail_and_bid_agree_on_existence :
  forall (req : bid_request) (now now' t : Z) (update_up : bool) (s : server)
         (id amount : num) (userId : jsval),
    bid_parse req = Some (id, amount, userId) ->
    (fst (bid_handler req now now' true update_up s) = Rejected NotFound
     <-> auction_detail (params_id req) t true s = detail_404)
    /\ auction_detail (params_id req) t true s <> detail_400.
Proof.
  intros req now now' t uu s i a u Hparse.
  assert (Hi : i = Number (JStr (params_id req)) /\ truthy_num i = true).
  { unfold bid_parse in Hparse.
    destruct (prop (or_empty (body req)) "amount"); try discriminate.
    destruct (truthy_num (Number (JStr (params_id req)))) eqn:Ht;
      cbn [negb orb] in Hparse; [|discriminate].
    destruct (num_leb n (num_of_Z 0)); [discriminate|].
    injection Hparse as <- _ _. auto. }
  destruct Hi as [Hi Ht].
  unfold bid_handler, auction_detail. rewrite Hparse, <- Hi, Ht. simpl negb. cbv iota.
  rewrite resolved_select.
  destruct (true && is_finite i).
  - destruct (resolved i (db s)) as [|r rest]; simpl.
    + split; [tauto|discriminate].
    + split; [|discriminate]. split; [|discriminate].
      destruct (Z.ltb now (Date_of_DATETIME (start_time r))); [discriminate|].
      destruct (Z.gtb now (Date_of_DATETIME (end_time r)) || status_eqb (row_status r) ended);
        [discriminate|].
      destruct (num_leb a (Fin (current_price r))); [discriminate|].
      unfold bid_commit. destruct (update_price uu i a s); discriminate.
  - simpl. split; [|discriminate]. split; discriminate.
Qed.

(** ** ensureSchema *)

Lemma floor_second_bounds :
  forall d, (d - 999 <= 1000 * (d / 1000) <= d)%Z.
Proof.
  intros d.
  pose proof (Z.div_mod d 1000 ltac:(lia)) as H.
  pose proof (Z.mod_pos_bound d 1000 ltac:(lia)) as B. lia.
Qed.

(** X15. [ensureSchema] seeds an empty table with one auction and leaves a
    table that has rows alone; running it again changes nothing, so a
    restart does not add a second demo auction. *)
Theorem ensureSchema_seeds_once :
  forall (now now' auto_id auto_id' : Z) (d : list row),
    ensureSchema now' auto_id' (ensureSchema now auto_id d) = ensureSchema now auto_id d
    /\ ensureSchema now auto_id d <> []
    /\ (d <> [] -> ensureSchema now auto_id d = d)
    /\ ensureSchema now auto_id [] = [seed_auction auto_id now].
Proof.
  intros now now' i i' d. unfold ensureSchema.
  destruct d as [|r d]; simpl; repeat split; auto;
    try discriminate; intros H; congruence.
Qed.

(** X16. The seeded auction can be bid on at once, in a zone that reads
    the two stored times back as the seconds they were printed for (neither
    falls in an hour that the wall clock repeats): on a table seeded at
    instant [t], a bid above 100 on the new id, made at [t] or up to 299
    seconds later with the store executing its statements, is accepted, and
    the price of the auction is then the amount as the column stores it.
    (The id the store gave the row is not 0, and the path of the request
    reads as that id.) *)
Theorem seeded_auction_accepts_bids :
  forall (t auto_id now now' : Z) (req : bid_request) (a : Q) (s : server),
    db s = ensureSchema t auto_id [] ->
    auto_id <> 0%Z ->
    Number (JStr (params_id req)) = num_of_Z auto_id ->
    prop (or_empty (body req)) "amount" = JNum (Fin a) ->
    (100 < a)%Q ->
    Date_of_DATETIME (formatDateTime (t - 1 * 60 * 1000))
    = (1000 * ((t - 1 * 60 * 1000) / 1000))%Z ->
    Date_of_DATETIME (formatDateTime (t + 5 * 60 * 1000))
    = (1000 * ((t + 5 * 60 * 1000) / 1000))%Z ->
    (t <= now <= t + 299000)%Z ->
    fst (bid_handler req now now' true true s) = Accepted (payload_of req now')
    /\ exists stored,
         price_of auto_id (db (snd (bid_handler req now now' true true s))) = Some stored
         /\ stored_as a stored.
Proof.
  intros t i now now' req a s Hdb Hi Hid Ha Hgt Hstart Hend Hnow.
  assert (Hzero : (0 < a)%Q) by lra.
  assert (Hpos : num_leb (Fin a) (num_of_Z 0) = false).
  { simpl. destruct (Qle_bool a (inject_Z 0)) eqn:E; auto.
    apply Qle_bool_iff in E. change (inject_Z 0) with 0%Q in E. lra. }
  assert (Htruthy : truthy_num (num_of_Z i) = true).
  { unfold num_of_Z, truthy_num, Qeq_bool. simpl.
    rewrite Z.mul_1_r. apply negb_true_iff. now apply Z.eqb_neq. }
  assert (Hmatch : id_matches (inject_Z i) (seed_auction i t) = true).
  { unfold id_matches. simpl. apply Qeq_bool_refl. }
  pose proof (floor_second_bounds (t - 1 * 60 * 1000)) as B1.
  pose proof (floor_second_bounds (t + 5 * 60 * 1000)) as B2.
  unfold bid_handler, bid_parse, payload_of.
  rewrite Hid, Ha, Htruthy, Hpos. cbn [negb orb].
  unfold select_by_id, num_of_Z. rewrite Hdb. unfold ensureSchema.
  cbn [List.length Nat.eqb app filter]. rewrite Hmatch. cbn [firstn bid_check].
  cbn [seed_auction start_time end_time row_status current_price status_eqb].
  rewrite Hstart, Hend.
  destruct (Z.ltb_spec now (1000 * ((t - 1 * 60 * 1000) / 1000))); [lia|].
  destruct (Z.gtb_spec now (1000 * ((t + 5 * 60 * 1000) / 1000))); [lia|].
  cbn [orb].
  assert (Hhigh : num_leb (Fin a) (Fin (inject_Z 100)) = false).
  { simpl. destruct (Qle_bool a (inject_Z 100)) eqn:E; auto.
    apply Qle_bool_iff in E. change (inject_Z 100) with 100%Q in E. lra. }
  rewrite Hhigh.
  unfold bid_commit, update_price. cbn [fst snd].
  split; [reflexivity|].
  match goal with |- context [broadcastToAuction ?x ?m ?s1] =>
    destruct (broadcast_frame x m s1) as (Hdb' & _)
  end.
  rewrite Hdb'. cbn [db with_store_log with_db]. rewrite Hdb.
  unfold ensureSchema. cbn [List.length Nat.eqb app map]. rewrite Hmatch.
  unfold price_of. cbn [find set_price id]. cbn [seed_auction id].
  rewrite Z.eqb_refl. exists (decimal_10_2 a). split; [reflexivity|].
  now apply decimal_10_2_stored.
Qed.

(** ** Text: [pad], [formatDateTime] and [formatRemain] *)

Lemma string_length_app :
  forall a b : string,
    String.length (a ++ b) = (String.length a + String.length b)%nat.
Proof. induction a as [|c a IH]; intros b; simpl; auto. Qed.

Lemma string_app_inj :
  forall a b x y : string,
    String.length a = String.length b ->
    (a ++ x)%string = (b ++ y)%string -> a = b /\ x = y.
Proof.
  induction a as [|c a IH]; destruct b as [|c' b]; simpl; try discriminate.
  - auto.
  - intros x y L E. injection L as L. injection E as -> E.
    destruct (IH b x y L E). subst. auto.
Qed.

Lemma pad_table :
  forallb (fun k =>
             Nat.eqb (String.length (pad (Z.of_nat k))) 2
             && match digits_value (pad (Z.of_nat k)) 0 with
                | Some z => Z.eqb z (Z.of_nat k)
                | None => false
                end) (seq 0 100) = true.
Proof. vm_compute. reflexivity. Qed.

Lemma year_table :
  forallb (fun k =>
             Nat.eqb (String.length (dec (Z.of_nat k))) 4
             && match digits_value (dec (Z.of_nat k)) 0 with
                | Some z => Z.eqb z (Z.of_nat k)
                | None => false
                end) (seq (Z.to_nat 1000) (Z.to_nat 9000)) = true.
Proof. vm_compute. reflexivity. Qed.

(** [pad] gives two digits that spell the number, from 0 to 99. *)
Lemma pad_two_digits :
  forall n, (0 <= n <= 99)%Z ->
            String.length (pad n) = 2%nat /\ digits_value (pad n) 0 = Some n.
Proof.
  intros n Hn. pose proof pad_table as T.
  rewrite forallb_forall in T. specialize (T (Z.to_nat n)).
  rewrite Z2Nat.id in T by lia.
  assert (Hin : In (Z.to_nat n) (seq 0 100)) by (apply in_seq; lia).
  apply T in Hin. apply andb_true_iff in Hin. destruct Hin as [L D].
  apply Nat.eqb_eq in L. split; auto.
  destruct (digits_value (pad n) 0); [|discriminate].
  apply Z.eqb_eq in D. now subst.
Qed.

Lemma dec_four_digits :
  forall n, (1000 <= n <= 9999)%Z ->
            String.length (dec n) = 4%nat /\ digits_value (dec n) 0 = Some n.
Proof.
  intros n Hn. pose proof year_table as T.
  rewrite forallb_forall in T. specialize (T (Z.to_nat n)).
  rewrite Z2Nat.id in T by lia.
  assert (Hin : In (Z.to_nat n) (seq (Z.to_nat 1000) (Z.to_nat 9000)))
    by (apply in_seq; lia).
  apply T in Hin. apply andb_true_iff in Hin. destruct Hin as [L D].
  apply Nat.eqb_eq in L. split; auto.
  destruct (digits_value (dec n) 0); [|discriminate].
  apply Z.eqb_eq in D. now subst.
Qed.

Lemma pad_inj :
  forall n m, (0 <= n <= 99)%Z -> (0 <= m <= 99)%Z -> pad n = pad m -> n = m.
Proof.
  intros n m Hn Hm E.
  destruct (pad_two_digits n Hn) as [_ Dn].
  destruct (pad_two_digits m Hm) as [_ Dm].
  rewrite E in Dn. congruence.
Qed.

(** X17. For a date with a four-digit year, [formatDateTime] gives a text
    of exactly 19 characters, and two dates that differ in any field, year
    to second, give different texts. *)
Theorem formatDateTime_text_is_fixed_width :
  forall d : date_fields,
    valid_date d ->
    String.length (formatDateTime_text d) = 19%nat
    /\ forall d', valid_date d' ->
                  formatDateTime_text d = formatDateTime_text d' -> d = d'.
Proof.
  intros d (Hy & Hmo & Hd & Hh & Hmi & Hs).
  assert (Hmo1 : (0 <= getMonth d + 1 <= 99)%Z) by lia.
  destruct (dec_four_digits _ Hy) as [Ly _].
  destruct (pad_two_digits _ Hmo1) as [Lmo _].
  destruct (pad_two_digits (getDate d) ltac:(lia)) as [Ld _].
  destruct (pad_two_digits (getHours d) ltac:(lia)) as [Lh _].
  destruct (pad_two_digits (getMinutes d) ltac:(lia)) as [Lmi _].
  destruct (pad_two_digits (getSeconds d) ltac:(lia)) as [Ls _].
  split.
  - unfold formatDateTime_text. rewrite !string_length_app.
    rewrite Ly, Lmo, Ld, Lh, Lmi, Ls. reflexivity.
  - intros d' (Hy' & Hmo' & Hd' & Hh' & Hmi' & Hs') E.
    assert (Hmo1' : (0 <= getMonth d' + 1 <= 99)%Z) by lia.
    destruct (dec_four_digits _ Hy') as [Ly' Dy'].
    destruct (dec_four_digits _ Hy) as [_ Dy].
    destruct (pad_two_digits _ Hmo1') as [Lmo' _].
    destruct (pad_two_digits (getDate d') ltac:(lia)) as [Ld' _].
    destruct (pad_two_digits (getHours d') ltac:(lia)) as [Lh' _].
    destruct (pad_two_digits (getMinutes d') ltac:(lia)) as [Lmi' _].
    unfold formatDateTime_text in E.
    apply string_app_inj in E; [|congruence]. destruct E as [Ey E].
    simpl in E. injection E as E.
    apply string_app_inj in E; [|congruence]. destruct E as [Emo E].
    simpl in E. injection E as E.
    apply string_app_inj in E; [|congruence]. destruct E as [Ed E].
    simpl in E. injection E as E.
    apply string_app_inj in E; [|congruence]. destruct E as [Eh E].
    simpl in E. injection E as E.
    apply string_app_inj in E; [|congruence]. destruct E as [Emi E].
    simpl in E. injection E as Es.
    rewrite Ey in Dy. rewrite Dy' in Dy. injection Dy as Ey'.
    apply pad_inj in Emo; try lia.
    apply pad_inj in Ed; try lia.
    apply pad_inj in Eh; try lia.
    apply pad_inj in Emi; try lia.
    apply pad_inj in Es; try lia.
    destruct d, d'. simpl in *. f_equal; lia.
Qed.

(** The text of a number of whole seconds, as [formatRemain] builds it. *)
Lemma formatRemain_of_seconds :
  forall ms,
    formatRemain ms
    = let T := (Z.max ms 0 / 1000)%Z in
      if Z.geb (T / 60) 60
      then (pad (T / 60 / 60) ++ ":" ++ pad (T / 60 mod 60) ++ ":" ++ pad (T mod 60))%string
      else (pad (T / 60) ++ ":" ++ pad (T mod 60))%string.
Proof.
  intros ms. unfold formatRemain. destruct (Z.leb_spec ms 0) as [H|H].
  - rewrite (Z.max_r ms 0) by lia. reflexivity.
  - rewrite (Z.max_l ms 0) by lia. reflexivity.
Qed.

(** X18. The countdown text shows the whole seconds that remain and nothing
    else: below 100 hours, two remaining times give the same text exactly
    when they have the same number of whole seconds, a time that has run
    out counting as 0. In particular the last second already reads 00:00. *)
Theorem formatRemain_shows_whole_seconds :
  forall a b : Z,
    (a < 360000000)%Z -> (b < 360000000)%Z ->
    (formatRemain a = formatRemain b
     <-> (Z.max a 0 / 1000 = Z.max b 0 / 1000)%Z).
Proof.
  intros a b Ha Hb. rewrite !formatRemain_of_seconds. cbv zeta.
  set (A := (Z.max a 0 / 1000)%Z). set (B := (Z.max b 0 / 1000)%Z).
  assert (HA : (0 <= A < 360000)%Z).
  { unfold A. split; [apply Z.div_pos; lia|apply Z.div_lt_upper_bound; lia]. }
  assert (HB : (0 <= B < 360000)%Z).
  { unfold B. split; [apply Z.div_pos; lia|apply Z.div_lt_upper_bound; lia]. }
  clearbody A B. split; [|intros ->; reflexivity].
  assert (Hfields : forall T, (0 <= T < 360000)%Z ->
            (0 <= T mod 60 <= 99 /\ 0 <= T / 60 mod 60 <= 99
             /\ 0 <= T / 60 / 60 <= 99 /\ 0 <= T / 60)%Z).
  { intros T HT.
    pose proof (Z.mod_pos_bound T 60 ltac:(lia)).
    pose proof (Z.mod_pos_bound (T / 60) 60 ltac:(lia)).
    assert (0 <= T / 60 < 6000)%Z
      by (split; [apply Z.div_pos; lia|apply Z.div_lt_upper_bound; lia]).
    assert (0 <= T / 60 / 60 < 100)%Z
      by (split; [apply Z.div_pos; lia|apply Z.div_lt_upper_bound; lia]).
    lia. }
  destruct (Hfields A HA) as (As & Am & Ah & Apos).
  destruct (Hfields B HB) as (Bs & Bm & Bh & Bpos).
  pose proof (Z.div_mod A 60 ltac:(lia)) as DA.
  pose proof (Z.div_mod B 60 ltac:(lia)) as DB.
  pose proof (Z.div_mod (A / 60) 60 ltac:(lia)) as DA'.
  pose proof (Z.div_mod (B / 60) 60 ltac:(lia)) as DB'.
  destruct (pad_two_digits _ As) as [LAs _].
  destruct (pad_two_digits _ Am) as [LAm _].
  destruct (pad_two_digits _ Ah) as [LAh _].
  destruct (pad_two_digits _ Bs) as [LBs _].
  destruct (pad_two_digits _ Bm) as [LBm _].
  destruct (pad_two_digits _ Bh) as [LBh _].
  destruct (Z.geb_spec (A / 60) 60) as [GA|GA];
    destruct (Z.geb_spec (B / 60) 60) as [GB|GB]; intros E.
  - apply string_app_inj in E; [|congruence]. destruct E as [Eh E].
    simpl in E. injection E as E.
    apply string_app_inj in E; [|congruence]. destruct E as [Em E].
    simpl in E. injection E as Es.
    apply pad_inj in Eh; try lia. apply pad_inj in Em; try lia.
    apply pad_inj in Es; try lia.
  - exfalso. apply (f_equal String.length) in E.
    destruct (pad_two_digits (B / 60) ltac:(lia)) as [LB _].
    rewrite !string_length_app in E.
    rewrite LAh, LAm, LAs, LB, LBs in E. simpl in E. discriminate.
  - exfalso. apply (f_equal String.length) in E.
    destruct (pad_two_digits (A / 60) ltac:(lia)) as [LA _].
    rewrite !string_length_app in E.
    rewrite LBh, LBm, LBs, LA, LAs in E. simpl in E. discriminate.
  - destruct (pad_two_digits (A / 60) ltac:(lia)) as [LA _].
    destruct (pad_two_digits (B / 60) ltac:(lia)) as [LB _].
    apply string_app_inj in E; [|congruence]. destruct E as [Em E].
    simpl in E. injection E as Es.
    apply pad_inj in Em; try lia. apply pad_inj in Es; try lia.
Qed.

(** ** The clock of the client *)

(** X19. After [syncTime] against the time-sync endpoint, the client's
    [getServerNow] is the clock of the server at the exchange plus the time
    that has passed on the local clock since the request, whatever the local
    clock itself reads; the reply is never the 400 failure. When the
    exchange fails the offset is 0 and the local clock is used as it is. *)
Theorem getServerNow_follows_the_server :
  forall (DateParse : string -> num) (serverNow clientTime local : Z),
    time_sync DateParse serverNow (syncTime_request clientTime) <> time_sync_400
    /\ same_value_zero
         (getServerNow local
            (syncTime (time_sync_reply
                         (time_sync DateParse serverNow (syncTime_request clientTime)))))
         (num_of_Z (serverNow + (local - clientTime))) = true
    /\ getServerNow local (syncTime None) = Fin (inject_Z local + inject_Z 0).
Proof.
  intros P S t0 t. split; [discriminate|]. split; [|reflexivity].
  unfold time_sync, syncTime_request, getServerNow, syncTime, time_sync_reply,
    over_json, num_sub, num_neg, num_of_Z. simpl.
  apply Qeq_bool_iff.
  unfold Z.sub. rewrite !inject_Z_plus, inject_Z_opp. ring.
Qed.

(** ** Acceptance of a bid *)

(** X20. What makes a bid succeed: for a request that passes the screening,
    with a finite amount, on an existing auction and with the store
    answering, the bid is accepted exactly when the clock is within the
    window, both ends included, the row is not [ended], and the amount is
    strictly above the current price. *)
Theorem bid_accepted_iff :
  forall (req : bid_request) (now now' : Z) (s : server)
         (id : num) (a : Q) (userId : jsval) (auction : row) (rest : list row),
    bid_parse req = Some (id, Fin a, userId) ->
    select_by_id true id (db s) = Some (auction :: rest) ->
    ((exists p, fst (bid_handler req now now' true true s) = Accepted p)
     <-> (Date_of_DATETIME (start_time auction) <= now <= Date_of_DATETIME (end_time auction))%Z
         /\ row_status auction <> ended
         /\ (current_price auction < a)%Q).
Proof.
  intros req now now' s i a u auction rest Hparse Hsel.
  unfold bid_handler. rewrite Hparse, Hsel. unfold bid_check.
  assert (Hfin : exists q, i = Fin q).
  { unfold select_by_id in Hsel. destruct i; try discriminate. eauto. }
  destruct Hfin as [q ->].
  destruct (Z.ltb_spec now (Date_of_DATETIME (start_time auction))) as [H1|H1].
  { simpl. split; [intros [p Hp]; discriminate|intros [? _]; lia]. }
  destruct (Z.gtb_spec now (Date_of_DATETIME (end_time auction))) as [H2|H2].
  { simpl. split; [intros [p Hp]; discriminate|intros [? _]; lia]. }
  cbn [orb].
  destruct (status_eqb (row_status auction) ended) eqn:Est.
  { simpl. split; [intros [p Hp]; discriminate|].
    intros (_ & Hne & _). destruct (row_status auction); simpl in Est;
      try discriminate. congruence. }
  assert (Hne : row_status auction <> ended)
    by (intros E; rewrite E in Est; discriminate).
  simpl num_leb.
  destruct (Qle_bool a (current_price auction)) eqn:Ele.
  - simpl. split; [intros [p Hp]; discriminate|].
    intros (_ & _ & Hlt). apply Qle_bool_iff in Ele. exfalso.
    apply (Qlt_irrefl a). now apply Qle_lt_trans with (current_price auction).
  - unfold bid_commit, update_price. simpl. split; [|eauto].
    intros _. repeat split; auto.
    apply Qnot_le_lt. intros Hle. apply Qle_bool_iff in Hle. congruence.
Qed.

(** X21. Once the row of an auction says [ended], no bid on it is ever
    accepted again, whatever bids, ticks, messages and disconnections run
    in between (one after the other) and whatever the clock says. *)
Theorem no_bid_after_ended :
  forall (ops : list server_op) (s : server) (i : Z)
         (req : bid_request) (now now' : Z) (select_up update_up : bool),
    status_of i (db s) = Some ended ->
    Number (JStr (params_id req)) = num_of_Z i ->
    forall p, fst (bid_handler req now now' select_up update_up
                     (run_server_ops ops s)) <> Accepted p.
Proof.
  intros ops s i req now now' su uu Hend Hid p Hacc.
  assert (Hstill : status_of i (db (run_server_ops ops s)) = Some ended).
  { clear - Hend. unfold run_server_ops. revert s Hend.
    induction ops as [|o ops IH]; intros s H; simpl; auto.
    apply IH. now apply run_server_op_frame. }
  destruct (bid_handler req now now' su uu (run_server_ops ops s))
    as [r s'] eqn:E.
  simpl in Hacc. subst r.
  apply bid_handler_accepted_open in E.
  destruct E as (q & a & auction & s1 & Hq & _ & _ & Hres & Hst & _).
  rewrite Hid in Hq. injection Hq as <-.
  assert (Hf : find (fun r => Z.eqb (id r) i) (db (run_server_ops ops s))
               = Some auction).
  { apply find_first_filter with (f := id_matches (inject_Z i)).
    - intros r. apply id_matches_iff. apply Qeq_bool_refl.
    - exact Hres. }
  unfold status_of in Hstill. rewrite Hf in Hstill. congruence.
Qed.

(** ** A tick that fails midway *)

Lemma sweep_rows_any :
  forall i rows update_up stamp s,
    let s' := sweep_rows rows update_up stamp s in
    db s' = map (fun r => if existsb (fun a => Z.eqb (id r) (id a)) (swept rows update_up)
                          then set_status ended r else r) (db s)
    /\ ended_writes i (store_log s')
       = (ended_writes i (store_log s) + hits i (swept rows update_up))%nat
    /\ ended_events i (published s')
       = (ended_events i (published s) + hits i (swept rows update_up))%nat.
Proof.
  intros i rows up stamp. induction rows as [|a rest IH]; intros s; simpl.
  - repeat split; auto. symmetry. apply map_id.
  - destruct (up (id a)) eqn:Eup; simpl.
    + match goal with |- context [sweep_rows rest up stamp ?s2] =>
        destruct (IH s2) as (Hdb & Hw & He);
        destruct (sweep_turn i (id a) (stamp (id a)) s _ eq_refl) as (Hdb1 & Hw1 & He1)
      end.
      simpl in Hdb1, Hw1, He1.
      rewrite Hdb, Hw, He, Hdb1, Hw1, He1. unfold hits. simpl.
      split; [|destruct (Z.eqb (id a) i); simpl; lia].
      rewrite map_map. apply map_ext. intros r.
      destruct (Z.eqb (id r) (id a)); simpl;
        destruct (existsb (fun x => Z.eqb (id r) (id x)) (swept rest up)); reflexivity.
    + unfold hits. simpl. repeat split; auto. symmetry. apply map_id.
Qed.

Lemma swept_sub : forall rows up r, In r (swept rows up) -> In r rows.
Proof.
  induction rows as [|a rest IH]; intros up r; simpl; auto.
  destruct (up (id a)); simpl; [|contradiction].
  intros [H|H]; eauto.
Qed.

Lemma swept_NoDup :
  forall rows up, NoDup (map id rows) -> NoDup (map id (swept rows up)).
Proof.
  induction rows as [|a rest IH]; intros up H; simpl; auto.
  inversion H as [|x l Hnot Hnd]; subst.
  destruct (up (id a)); simpl; [|constructor].
  constructor; auto.
  intros Hin. apply Hnot. apply in_map_iff in Hin.
  destruct Hin as (r & Hr & Hin). rewrite <- Hr. apply in_map.
  eapply swept_sub; eauto.
Qed.

Lemma In_NoDup_same_id :
  forall (d : list row) a b,
    NoDup (map id d) -> In a d -> In b d -> id a = id b -> a = b.
Proof.
  induction d as [|r d IH]; simpl; intros a b Hnd Ha Hb E; [contradiction|].
  inversion Hnd as [|x l Hnot Hnd']; subst.
  destruct Ha as [->|Ha]; destruct Hb as [->|Hb]; auto.
  - exfalso. apply Hnot. rewrite E. now apply in_map.
  - exfalso. apply Hnot. rewrite <- E. now apply in_map.
Qed.

(** X22. A tick whose UPDATE throws midway loses nothing and repeats
    nothing, when the wall clock has not gone back between it and the next
    tick: whatever part of its rows the failed tick got through, after one
    later tick on which the store answers, an auction that was past its
    end is [ended], and over the two ticks, run one after the other, it was
    written [ended] once, its end was broadcast once, and it was sent once
    to each open member of its room. (Ids are unique and a room lists a
    connection once.) *)
Theorem failed_tick_is_made_up :
  forall (now now' : Z) (update_up : Z -> bool) (stamp stamp' : Z -> Z)
         (s : server) (a : row),
    NoDup (map id (db s)) ->
    sets_distinct (rooms s) ->
    In a (db s) ->
    row_status a <> ended ->
    (end_time a <= formatDateTime now)%Z ->
    (formatDateTime now <= formatDateTime now')%Z ->
    let s1 := sweep now true update_up stamp s in
    let s2 := sweep now' true (fun _ => true) stamp' s1 in
    status_of (id a) (db s2) = Some ended
    /\ ended_writes (id a) (store_log s2) = S (ended_writes (id a) (store_log s))
    /\ ended_events (id a) (published s2) = S (ended_events (id a) (published s))
    /\ forall c, ended_frames c (id a) (sent s2)
                 = (ended_frames c (id a) (sent s)
                    + (if reaches c (id a) s then 1 else 0))%nat.
Proof.
  intros now now' up stamp stamp' s a Hnd Hsets Hin Hst Hexp Hle s1 s2.
  set (expired := fun t (r : row) =>
         negb (status_eqb (row_status r) ended) && Z.leb (end_time r) (formatDateTime t)).
  assert (Hs1 : s1 = sweep_rows (filter (expired now) (db s)) up stamp s)
    by reflexivity.
  assert (Hs2 : s2 = sweep_rows (filter (expired now') (db s1)) (fun _ => true) stamp' s1)
    by reflexivity.
  set (done := swept (filter (expired now) (db s)) up) in *.
  destruct (sweep_rows_any (id a) (filter (expired now) (db s)) up stamp s)
    as (Hdb1 & Hw1 & He1).
  rewrite <- Hs1 in Hdb1, Hw1, He1. fold done in Hdb1, Hw1, He1.
  destruct (sweep_rows_up (id a) (filter (expired now') (db s1)) stamp' s1)
    as (Hdb2 & Hw2 & He2).
  rewrite <- Hs2 in Hdb2, Hw2, He2.
  destruct (sweep_rows_frame (filter (expired now) (db s)) up stamp s)
    as (_ & _ & Hrooms1 & Hsock1 & _).
  rewrite <- Hs1 in Hrooms1, Hsock1.
  assert (Hsets1 : sets_distinct (rooms s1)) by (now rewrite Hrooms1).
  assert (Hreach1 : forall c, reaches c (id a) s1 = reaches c (id a) s)
    by (intros c; unfold reaches; now rewrite Hrooms1, Hsock1).
  assert (Hf1 : forall c, ended_frames c (id a) (sent s1)
                          = (ended_frames c (id a) (sent s)
                             + (if reaches c (id a) s then hits (id a) done else 0))%nat).
  { intros c. rewrite Hs1. now rewrite (sweep_rows_frames c (id a) _ up stamp s Hsets). }
  assert (Hf2 : forall c, ended_frames c (id a) (sent s2)
                          = (ended_frames c (id a) (sent s1)
                             + (if reaches c (id a) s
                                then hits (id a) (filter (expired now') (db s1))
                                else 0))%nat).
  { intros c. rewrite Hs2.
    rewrite (sweep_rows_frames c (id a) _ (fun _ => true) stamp' s1 Hsets1).
    now rewrite swept_all, Hreach1. }
  assert (Hdone_nd : NoDup (map id done)).
  { apply swept_NoDup. now apply NoDup_map_filter. }
  assert (Hdone_sub : forall r, In r done -> In r (db s)).
  { intros r Hr. apply swept_sub in Hr. apply filter_In in Hr. tauto. }
  assert (Hnd1 : NoDup (map id (db s1))).
  { rewrite Hdb1, map_map.
    rewrite (map_ext _ id); auto. intros r. destruct (existsb _ done); reflexivity. }
  destruct (existsb (fun x => Z.eqb (id a) (id x)) done) eqn:Ex.
  - (* the failed tick reached the auction *)
    apply existsb_exists in Ex. destruct Ex as (b & Hb & Hid). apply Z.eqb_eq in Hid.
    assert (Hab : a = b) by (apply (In_NoDup_same_id (db s)); auto).
    subst b.
    rewrite (hits_NoDup a done Hdone_nd Hb) in Hw1, He1, Hf1.
    assert (Hended1 : forall r, In r (db s1) -> id r = id a -> row_status r = ended).
    { intros r Hr E. rewrite Hdb1 in Hr. apply in_map_iff in Hr.
      destruct Hr as (r0 & Hr0 & _).
      assert (Hex : existsb (fun x => Z.eqb (id r0) (id x)) done = true).
      { apply existsb_exists. exists a. split; auto. apply Z.eqb_eq.
        rewrite <- E, <- Hr0. destruct (existsb _ done); reflexivity. }
      rewrite Hex in Hr0. now subst r. }
    assert (Hnone : hits (id a) (filter (expired now') (db s1)) = 0%nat).
    { apply hits_none. intros r Hr E. apply filter_In in Hr. destruct Hr as [Hr Hx].
      unfold expired in Hx. rewrite (Hended1 r Hr E) in Hx. discriminate. }
    rewrite Hnone in Hw2, He2, Hf2.
    assert (Hstat1 : status_of (id a) (db s1) = Some ended).
    { rewrite Hdb1. apply status_of_map with (a := a); auto.
      intros r Hr. apply existsb_exists. exists a. split; auto. now apply Z.eqb_eq. }
    split; [rewrite Hdb2; now apply status_of_stays_ended|].
    split; [lia|]. split; [lia|].
    intros c. rewrite (Hf2 c), (Hf1 c). destruct (reaches c (id a) s); lia.
  - (* the failed tick stopped before the auction *)
    assert (Hmiss : hits (id a) done = 0%nat).
    { apply hits_none. intros r Hr E.
      assert (Hx : existsb (fun x => Z.eqb (id a) (id x)) done = true).
      { apply existsb_exists. exists r. split; auto. apply Z.eqb_eq. auto. }
      congruence. }
    rewrite Hmiss in Hw1, He1, Hf1.
    assert (Hin1 : In a (db s1)).
    { rewrite Hdb1. apply in_map_iff. exists a. split; auto. now rewrite Ex. }
    assert (Hsel2 : In a (filter (expired now') (db s1))).
    { apply filter_In. split; auto. unfold expired.
      apply andb_true_iff. split.
      - destruct (row_status a); simpl; congruence.
      - apply Z.leb_le. lia. }
    rewrite (hits_NoDup a _ (NoDup_map_filter _ _ Hnd1) Hsel2) in Hw2, He2, Hf2.
    split.
    { rewrite Hdb2. apply status_of_map with (a := a); auto.
      intros r Hr. apply existsb_exists. exists a. split; auto. now apply Z.eqb_eq. }
    split; [lia|]. split; [lia|].
    intros c. rewrite (Hf2 c), (Hf1 c). destruct (reaches c (id a) s); lia.
Qed.

End MoreProperties.

(** * Examples: the statements at concrete inputs

    The examples read a string as a number with [read_digits] and run in
    UTC, where the wall clock reads the instant. *)

#[local] Existing Instance digits_only.

(** C1, the code at a failing input. With the price at 100, bids of 150
    and 120 that both read the row before either writes are both accepted:
    the price is 150 after the first write and 120 after the second, so the
    lower bid has replaced the higher one and no bid failed, although each
    request passed the test [amount <= currentPrice] of the handler. *)
Lemma concurrent_lower_bid_overwrites_higher :
  price_of 1 (db (snd (run_events (firstn 5 interleaved) (two_bids, server0))))
  = Some (inject_Z 150)
  /\ price_of 1 (db (snd (run_events interleaved (two_bids, server0))))
     = Some (inject_Z 120)
  /\ fst (run_events interleaved (two_bids, server0))
     = [Replied (Accepted (bidUpdate (num_of_Z 1) (num_of_Z 150) (JStr "user-7") 1004));
        Replied (Accepted (bidUpdate (num_of_Z 1) (num_of_Z 120) (JStr "user-7") 1005))].
Proof. vm_compute. repeat split. Qed.


(** C5, the code at a failing input. Bids of 100.004 and then of 100.002
    on auction 1, at price 100, one call after the other: the column stores
    both as 100.00, so the second bid passes the test [amount <=
    currentPrice] as the first did. Both are accepted, the prices broadcast
    are 100.004 and then 100.002, and the persisted price is 100 throughout. *)
Lemma bids_within_a_cent_broadcast_a_lower_price :
  fst (bid_handler (call_req (call_of_amount "1" (Qmake 100004 1000) 1000))
         1000 1001 true true server0)
  = Accepted (bidUpdate (num_of_Z 1) (Fin (Qmake 100004 1000)) (JStr "user-7") 1001)
  /\ fst (bid_handler (call_req (call_of_amount "1" (Qmake 100002 1000) 2000))
            2000 2001 true true
            (run_call server0 (call_of_amount "1" (Qmake 100004 1000) 1000)))
     = Accepted (bidUpdate (num_of_Z 1) (Fin (Qmake 100002 1000)) (JStr "user-7") 2001)
  /\ new_prices 1 (published (run_calls within_a_cent server0))
     = [Fin (Qmake 100004 1000); Fin (Qmake 100002 1000)]
  /\ ~ strictly_increasing (new_prices 1 (published (run_calls within_a_cent server0)))
  /\ price_of 1 (db (run_call server0 (call_of_amount "1" (Qmake 100004 1000) 1000)))
     = Some (inject_Z 100)
  /\ price_of 1 (db (run_calls within_a_cent server0)) = Some (inject_Z 100).
Proof.
  split; [reflexivity|]. split; [reflexivity|]. split; [reflexivity|].
  split; [|split; reflexivity].
  intros [H _]. vm_compute in H. discriminate.
Qed.

(** The same failure without rounding: on the schedule [interleaved] the
    prices broadcast for auction 1 are 150 and then 120, which is not an
    increasing sequence, and the persisted price goes down from 150 to 120. *)
Lemma concurrent_broadcasts_decrease :
  new_prices 1 (published (snd (run_events interleaved (two_bids, server0))))
  = [num_of_Z 150; num_of_Z 120]
  /\ ~ strictly_increasing
         (new_prices 1 (published (snd (run_events interleaved (two_bids, server0)))))
  /\ (exists q q',
         price_of 1 (db (snd (run_events (firstn 5 interleaved) (two_bids, server0))))
         = Some q
         /\ price_of 1 (db (snd (run_events interleaved (two_bids, server0)))) = Some q'
         /\ (q' < q)%Q).
Proof.
  split; [reflexivity|]. split.
  - intros [H _]. vm_compute in H. discriminate.
  - exists (inject_Z 150), (inject_Z 120).
    repeat split; reflexivity.
Qed.


(** C4, the code at a failing input. Connection 0 watches auction 1, which
    is past its end. The first tick has read the table and its UPDATE is
    pending when the second tick fires, a second later, and reads the table
    too: the row is still [running], so both ticks write [ended] and both
    broadcast, and the connection is told twice that the auction has ended.
    When the first tick finishes before the second fires, there is one
    write and one message. *)
Lemma overlapping_ticks_end_twice :
  fst (run_tick_events ticks_overlap (two_ticks, server_watched)) = [Finished; Finished]
  /\ ended_writes 1 (store_log (snd (run_tick_events ticks_overlap
                                       (two_ticks, server_watched)))) = 2%nat
  /\ ended_events 1 (published (snd (run_tick_events ticks_overlap
                                       (two_ticks, server_watched)))) = 2%nat
  /\ sent (snd (run_tick_events ticks_overlap (two_ticks, server_watched)))
     = [(0%nat, auctionEnded (num_of_Z 1) 301520);
        (0%nat, auctionEnded (num_of_Z 1) 301530)]
  /\ ended_writes 1 (store_log (snd (run_tick_events ticks_in_turn
                                       (two_ticks, server_watched)))) = 1%nat
  /\ sent (snd (run_tick_events ticks_in_turn (two_ticks, server_watched)))
     = [(0%nat, auctionEnded (num_of_Z 1) 300520)].
Proof. vm_compute. repeat split. Qed.

(** Ticks that take their steps in turn are the ticks of [sweep]. *)
Lemma ticks_in_turn_are_sweeps :
  run_tick_events ticks_in_turn (two_ticks, server_watched)
  = ([Finished; Finished],
     sweep 301500 true (fun _ => true) (fun _ => 301510%Z)
       (sweep 300500 true (fun _ => true) (fun _ => 300520%Z) server_watched)).
Proof. reflexivity. Qed.

(** C2, the claim at a concrete input. A bid of -5 on auction 999, which
    does not exist: the handler replies InvalidInput, while the first check
    to fail in the order of the design document is the one for NotFound. *)
Lemma invalid_amount_on_unknown_auction :
  fst (bid_handler (bid_of "999" (-5)) 1000 1001 true true server0)
  = Rejected InvalidInput
  /\ first_failure (checks_of_design (bid_of "999" (-5)) 1000 (db server0))
     = Some NotFound.
Proof. split; reflexivity. Qed.

(** C3, the code at the failing input. Connection 0 joins auction 1 and then
    auction 2: it is a member of both rooms, and when it closes, only the
    second membership is removed: room 1 keeps the closed connection. *)
Lemma second_join_keeps_first_room :
  rooms_of 0%nat (rooms (joinRoom 0%nat (JNum (num_of_Z 2))
                       (joinRoom 0%nat (JNum (num_of_Z 1)) server0)))
  = [num_of_Z 1; num_of_Z 2]
  /\ rooms (on_close 0%nat (joinRoom 0%nat (JNum (num_of_Z 2))
                          (joinRoom 0%nat (JNum (num_of_Z 1)) server0)))
     = [(num_of_Z 1, [0%nat])].
Proof. split; reflexivity. Qed.

(** C8, the claim at a concrete input. A [joinAuction] for the id -3, which
    is negative and names no auction: a room for -3 is created with the
    connection as its member, and the connection records the id. *)
Lemma join_negative_id_creates_room :
  rooms (on_message 0%nat (Some (join_of (JNum (num_of_Z (-3))))) 1000 true server0)
  = [(num_of_Z (-3), [0%nat])]
  /\ _auctionId (sockets (on_message 0%nat (Some (join_of (JNum (num_of_Z (-3)))))
                            1000 true server0) 0%nat)
     = Some (num_of_Z (-3))
  /\ rooms server0 = [].
Proof. repeat split. Qed.

(** A join for the id 0 is dropped; a join for the unknown id 7 is made
    and answered by nothing. *)
Lemma join_only_falsy_id_is_dropped_witness :
  on_message 0%nat (Some (join_of (JNum (num_of_Z 0)))) 1000 true server0 = server0
  /\ (exists set,
         Map_get (num_of_Z 7)
           (rooms (on_message 0%nat (Some (join_of (JNum (num_of_Z 7)))) 1000 true server0))
         = Some set
         /\ Set_has 0%nat set = true)
  /\ sent (on_message 0%nat (Some (join_of (JNum (num_of_Z 7)))) 1000 true server0)
     = sent server0.
Proof.
  split; [|split].
  - apply (join_only_falsy_id_is_dropped 0%nat (join_of (JNum (num_of_Z 0)))
             1000%Z true server0); reflexivity.
  - apply (join_only_falsy_id_is_dropped 0%nat (join_of (JNum (num_of_Z 7)))
             1000%Z true server0); reflexivity.
  - apply (join_only_falsy_id_is_dropped 0%nat (join_of (JNum (num_of_Z 7)))
             1000%Z true server0); reflexivity.
Defined.

(** A bid of 150 at instant 300001, one millisecond after the end of auction
    1 (00:05:00, the instant 300000 in UTC), whose row still says [running]. *)
Lemma bid_after_end_is_closed_witness :
  row_status auction1 = running
  /\ bid_handler (bid_of "1" 150) 300001 300002 true true server0
     = (Rejected Closed, server0).
Proof.
  split; [reflexivity|].
  apply (bid_after_end_is_closed (bid_of "1" 150) 300001%Z 300002%Z true server0
           (num_of_Z 1) (num_of_Z 150) (JStr "user-7") auction1 []).
  - reflexivity.
  - reflexivity.
  - unfold Date_of_DATETIME, UTC. simpl. lia.
  - unfold Date_of_DATETIME, UTC. simpl. lia.
Defined.

(** The bid that names no bidder is broadcast and answered as "anonymous". *)
Lemma anonymous_bidder_witness :
  (exists auctionId newPrice,
      bidUpdate (num_of_Z 1) (num_of_Z 150) (JStr "anonymous") 1001
      = bidUpdate auctionId newPrice (JStr "anonymous") 1001)
  /\ published (snd (bid_handler unnamed_bid 1000 1001 true true server0))
     = published server0
       ++ [bidUpdate (num_of_Z 1) (num_of_Z 150) (JStr "anonymous") 1001]
  /\ (exists members,
         sent (snd (bid_handler unnamed_bid 1000 1001 true true server0))
         = sent server0
           ++ map (fun c => (c, bidUpdate (num_of_Z 1) (num_of_Z 150)
                                  (JStr "anonymous") 1001)) members).
Proof.
  apply (anonymous_bidder unnamed_bid 1000%Z 1001%Z true true server0
           (snd (bid_handler unnamed_bid 1000 1001 true true server0))
           (bidUpdate (num_of_Z 1) (num_of_Z 150) (JStr "anonymous") 1001)).
  - reflexivity.
  - reflexivity.
Defined.

(** A bid of 150 on auction 1, watched by connection 0 and not by
    connection 1: one row is written, one payload is published, and it is
    sent once, to connection 0. *)
Lemma bid_effects_only_on_success_witness :
  fst (bid_handler (bid_of "1" 150) 1000 1001 true true server_watched)
  = Accepted (bidUpdate (num_of_Z 1) (num_of_Z 150) (JStr "user-7") 1001)
  /\ price_of 1 (db (snd (bid_handler (bid_of "1" 150) 1000 1001 true true
                            server_watched)))
     = Some (inject_Z 150)
  /\ sent (snd (bid_handler (bid_of "1" 150) 1000 1001 true true server_watched))
     = [(0%nat, bidUpdate (num_of_Z 1) (num_of_Z 150) (JStr "user-7") 1001)]
  /\ exists (q amount stored : Q) (recipients : list conn),
    Number (JStr "1") = Fin q
    /\ JNum (num_of_Z 150) = JNum (Fin amount)
    /\ bidUpdate (num_of_Z 1) (num_of_Z 150) (JStr "user-7") 1001
       = bidUpdate (Fin q) (Fin amount) (JStr "user-7") 1001
    /\ stored_as amount stored
    /\ store_log (snd (bid_handler (bid_of "1" 150) 1000 1001 true true server_watched))
       = [SetPrice (Fin q) stored]
    /\ Forall2 (written_row q stored) [auction1]
         (db (snd (bid_handler (bid_of "1" 150) 1000 1001 true true server_watched)))
    /\ published (snd (bid_handler (bid_of "1" 150) 1000 1001 true true server_watched))
       = [bidUpdate (num_of_Z 1) (num_of_Z 150) (JStr "user-7") 1001]
    /\ sent (snd (bid_handler (bid_of "1" 150) 1000 1001 true true server_watched))
       = map (fun c => (c, bidUpdate (num_of_Z 1) (num_of_Z 150) (JStr "user-7") 1001))
           recipients
    /\ (forall c, In c recipients
                  <-> member c (Fin q) (rooms server_watched) = true
                      /\ readyState (sockets server_watched c) = OPEN)
    /\ (forall set, Map_get (Fin q) (rooms server_watched) = Some set ->
                    NoDup set -> NoDup recipients)
    /\ rooms (snd (bid_handler (bid_of "1" 150) 1000 1001 true true server_watched))
       = rooms server_watched
    /\ sockets (snd (bid_handler (bid_of "1" 150) 1000 1001 true true server_watched))
       = sockets server_watched.
Proof.
  split; [reflexivity|]. split; [reflexivity|]. split; [reflexivity|].
  exact (proj1 bid_effects_only_on_success (bid_of "1" 150) 1000%Z 1001%Z true true
           server_watched).
Defined.

(** Auction 1 ends at 00:05:00 and is watched by connection 0; ticks at the
    instants 300500 and 301500. *)
Lemma sweep_twice_ends_once_witness :
  let s1 := sweep 300500 true (fun _ => true) (fun _ => 300501%Z) server_watched in
  let s2 := sweep 301500 true (fun _ => true) (fun _ => 301501%Z) s1 in
  (status_of 1 (db s1) = Some ended
   /\ ended_writes 1 (store_log s1) = 1%nat
   /\ ended_events 1 (published s1) = 1%nat
   /\ ended_frames 0%nat 1 (sent s1) = 1%nat
   /\ ended_frames 1%nat 1 (sent s1) = 0%nat)
  /\ (status_of 1 (db s2) = Some ended
      /\ ended_writes 1 (store_log s2) = 1%nat
      /\ ended_events 1 (published s2) = 1%nat
      /\ ended_frames 0%nat 1 (sent s2) = 1%nat).
Proof.
  intros s1 s2.
  assert (Hnd : NoDup (map id (db server_watched)))
    by (simpl; constructor; [intros []|constructor]).
  assert (Hsets : sets_distinct (rooms server_watched)).
  { repeat constructor. simpl. intros []. }
  assert (Hin : In auction1 (db server_watched)) by (now left).
  assert (Hst : row_status auction1 <> ended) by discriminate.
  assert (Hexp : (end_time auction1 <= formatDateTime 300500)%Z)
    by (vm_compute; discriminate).
  destruct (sweep_twice_ends_once 300500%Z 301500%Z (fun _ => 300501%Z)
              (fun _ => 301501%Z) server_watched auction1 Hnd Hsets Hin Hst Hexp)
    as (H1 & H2 & _ & _).
  destruct H1 as (H1a & H1b & H1c & H1d).
  destruct H2 as (H2a & H2b & H2c & H2d).
  split.
  - split; [exact H1a|]. split; [exact H1b|]. split; [exact H1c|].
    split; [exact (H1d 0%nat)|exact (H1d 1%nat)].
  - split; [exact H2a|]. split; [exact H2b|]. split; [exact H2c|].
    exact (eq_trans (H2d 0%nat) (H1d 0%nat)).
Defined.

(** * Examples for the rest of the code *)

(** Two connections join room 1 and the first leaves. *)
Lemma registry_no_empty_room_witness :
  no_empty_room
    (rooms (fold_left run_op
              [Join 0%nat (JNum (num_of_Z 1)); Join 1%nat (JNum (num_of_Z 1)); Leave 0%nat]
              server0)).
Proof.
  apply (registry_no_empty_room
           [Join 0%nat (JNum (num_of_Z 1)); Join 1%nat (JNum (num_of_Z 1)); Leave 0%nat] server0).
  constructor.
Defined.

Lemma join_then_leave_restores_rooms_witness :
  rooms (leaveRoom 0%nat (joinRoom 0%nat (JNum (num_of_Z 1)) server0)) = rooms server0
  /\ _auctionId (sockets (leaveRoom 0%nat (joinRoom 0%nat (JNum (num_of_Z 1)) server0)) 0%nat)
     = None.
Proof.
  apply (join_then_leave_restores_rooms 0%nat (JNum (num_of_Z 1)) server0).
  - reflexivity.
  - intros set H. discriminate.
Defined.

(** Connection 0 joins room 1, leaves, and joins room 2. *)
Lemma single_room_when_joins_are_first_witness :
  (List.length (rooms_of 0%nat (rooms (fold_left run_op some_joins server0))) <= 1)%nat
  /\ forall k,
       In k (rooms_of 0%nat (rooms (fold_left run_op some_joins server0))) ->
       exists k', _auctionId (sockets (fold_left run_op some_joins server0) 0%nat)
                  = Some k'
                  /\ same_value_zero k' k = true.
Proof.
  apply (single_room_when_joins_are_first some_joins server0).
  - reflexivity.
  - simpl. repeat split; reflexivity.
Defined.

(** Connection 0 is in room 1, connection 1 in no room: a bid of 150 on
    auction 1 reaches the first and not the second. *)
Lemma bid_update_goes_to_the_room_witness :
  In (0%nat, bidUpdate (num_of_Z 1) (num_of_Z 150) (JStr "user-7") 1001)
     (sent (snd (bid_handler (bid_of "1" 150) 1000 1001 true true
                   (joinRoom 0%nat (JNum (num_of_Z 1)) server0))))
  /\ ~ In (1%nat, bidUpdate (num_of_Z 1) (num_of_Z 150) (JStr "user-7") 1001)
          (sent (snd (bid_handler (bid_of "1" 150) 1000 1001 true true
                        (joinRoom 0%nat (JNum (num_of_Z 1)) server0)))).
Proof.
  pose proof (bid_update_goes_to_the_room (bid_of "1" 150) 1000%Z 1001%Z true true
                (joinRoom 0%nat (JNum (num_of_Z 1)) server0)
                (snd (bid_handler (bid_of "1" 150) 1000 1001 true true
                        (joinRoom 0%nat (JNum (num_of_Z 1)) server0)))
                (bidUpdate (num_of_Z 1) (num_of_Z 150) (JStr "user-7") 1001)
                eq_refl) as H.
  split.
  - apply H. right. repeat split; reflexivity.
  - intros Hin. apply H in Hin. destruct Hin as [Hin|(_ & Hm & _)].
    + exact Hin.
    + discriminate Hm.
Defined.

Lemma ended_is_final_witness :
  status_of 1 (db (run_server_ops some_ops server_ended)) = Some ended.
Proof.
  apply (ended_is_final some_ops server_ended 1%Z). reflexivity.
Defined.

Lemma detail_shows_the_accepted_bid_witness :
  exists r a old,
    auction_detail "1" 5000 true
      (snd (bid_handler (bid_of "1" 150) 1000 1001 true true server0))
    = detail_200 r 5000
    /\ prop (or_empty (body (bid_of "1" 150))) "amount" = JNum (Fin a)
    /\ stored_as a (current_price r)
    /\ row_status r = running
    /\ auction_detail "1" 5000 true server0 = detail_200 old 5000
    /\ row_identity r = row_identity old.
Proof.
  apply (detail_shows_the_accepted_bid (bid_of "1" 150) 1000%Z 1001%Z 5000%Z true true
           server0
           (snd (bid_handler (bid_of "1" 150) 1000 1001 true true server0))
           (bidUpdate (num_of_Z 1) (num_of_Z 150) (JStr "user-7") 1001)).
  reflexivity.
Defined.

Lemma detail_and_bid_agree_on_existence_witness :
  (fst (bid_handler (bid_of "999" 150) 1000 1001 true true server0) = Rejected NotFound
   <-> auction_detail "999" 5000 true server0 = detail_404)
  /\ auction_detail "999" 5000 true server0 <> detail_400.
Proof.
  apply (detail_and_bid_agree_on_existence (bid_of "999" 150) 1000%Z 1001%Z 5000%Z true
           server0 (num_of_Z 999) (num_of_Z 150) (JStr "user-7")).
  reflexivity.
Defined.

(** The table is seeded at instant 1000000, in UTC, and bid on 299 seconds
    later. *)
Lemma seeded_auction_accepts_bids_witness :
  fst (bid_handler (bid_of "1" 150) 1299000 1299001 true true server_seeded)
  = Accepted (payload_of (bid_of "1" 150) 1299001)
  /\ exists stored,
       price_of 1 (db (snd (bid_handler (bid_of "1" 150) 1299000 1299001 true true
                              server_seeded)))
       = Some stored
       /\ stored_as (inject_Z 150) stored.
Proof.
  apply (seeded_auction_accepts_bids 1000000%Z 1%Z 1299000%Z 1299001%Z
           (bid_of "1" 150) (inject_Z 150) server_seeded).
  - reflexivity.
  - discriminate.
  - reflexivity.
  - reflexivity.
  - reflexivity.
  - reflexivity.
  - reflexivity.
  - lia.
Defined.

(** The same table seeded at the instant 7200000 in the zone of
    [clocks_go_back], the moment its clocks go back an hour: the end of
    the auction, five minutes later, is printed as 02:05:00 and read back
    as the first 02:05:00 of that night, 55 minutes before the seeding, so
    a bid made at once is refused as closed. *)
Lemma seeded_as_clocks_go_back_is_closed :
  fst (bid_handler (js := clocks_go_back) (bid_of "1" 150) 7200000 7200001 true true
         (with_db (ensureSchema (js := clocks_go_back) 7200000 1 []) server0))
  = Rejected Closed
  /\ Date_of_DATETIME (js := clocks_go_back)
       (formatDateTime (js := clocks_go_back) (7200000 + 5 * 60 * 1000))
     = 3900000%Z.
Proof. split; reflexivity. Qed.

(** 5 January 2024, 09:03:07. *)
Lemma formatDateTime_text_is_fixed_width_witness :
  formatDateTime_text a_date = "2024-01-05 09:03:07"
  /\ String.length (formatDateTime_text a_date) = 19%nat
  /\ forall d', valid_date d' ->
                formatDateTime_text a_date = formatDateTime_text d' -> a_date = d'.
Proof.
  split; [reflexivity|].
  apply (formatDateTime_text_is_fixed_width a_date).
  unfold valid_date, a_date. simpl. lia.
Defined.

(** 61.5 and 61 seconds both read 01:01; 999 milliseconds read 00:00. *)
Lemma formatRemain_shows_whole_seconds_witness :
  formatRemain 61500 = "01:01"
  /\ formatRemain 999 = "00:00"
  /\ (formatRemain 61500 = formatRemain 61000
      <-> (Z.max 61500 0 / 1000 = Z.max 61000 0 / 1000)%Z).
Proof.
  split; [reflexivity|]. split; [reflexivity|].
  apply (formatRemain_shows_whole_seconds 61500%Z 61000%Z); lia.
Defined.

(** A bid of 150 at the very end of auction 1, instant 300000. *)
Lemma bid_accepted_iff_witness :
  (exists p, fst (bid_handler (bid_of "1" 150) 300000 300001 true true server0)
             = Accepted p)
  <-> (Date_of_DATETIME (start_time auction1) <= 300000 <= Date_of_DATETIME (end_time auction1))%Z
      /\ row_status auction1 <> ended
      /\ (current_price auction1 < inject_Z 150)%Q.
Proof.
  apply (bid_accepted_iff (bid_of "1" 150) 300000%Z 300001%Z server0
           (num_of_Z 1) (inject_Z 150) (JStr "user-7") auction1 []).
  - reflexivity.
  - reflexivity.
Defined.

Lemma no_bid_after_ended_witness :
  fst (bid_handler (bid_of "1" 150) 1000 1001 true true
         (run_server_ops some_ops server_ended))
  <> Accepted (bidUpdate (num_of_Z 1) (num_of_Z 150) (JStr "user-7") 1001).
Proof.
  apply (no_bid_after_ended some_ops server_ended 1%Z (bid_of "1" 150)
           1000%Z 1001%Z true true).
  - reflexivity.
  - reflexivity.
Defined.

(** Two auctions past their end, the second watched by connection 0; the
    first tick throws at its first UPDATE, the second goes through. *)
Lemma failed_tick_is_made_up_witness :
  let s0 := joinRoom 0%nat (JNum (num_of_Z 2)) server_two in
  let s1 := sweep 300500 true (fun _ => false) (fun _ => 300501%Z) s0 in
  let s2 := sweep 301500 true (fun _ => true) (fun _ => 301501%Z) s1 in
  status_of 2 (db s2) = Some ended
  /\ ended_writes 2 (store_log s2) = 1%nat
  /\ ended_events 2 (published s2) = 1%nat
  /\ ended_frames 0%nat 2 (sent s2) = 1%nat.
Proof.
  intros s0 s1 s2.
  assert (Hnd : NoDup (map id (db s0))).
  { simpl. constructor; [intros [H|[]]; discriminate|].
    constructor; [intros []|constructor]. }
  assert (Hsets : sets_distinct (rooms s0)).
  { repeat constructor. simpl. intros []. }
  assert (Hin : In auction2 (db s0)) by (right; now left).
  assert (Hst : row_status auction2 <> ended) by discriminate.
  assert (Hexp : (end_time auction2 <= formatDateTime 300500)%Z)
    by (vm_compute; discriminate).
  assert (Hle : (formatDateTime 300500 <= formatDateTime 301500)%Z)
    by (vm_compute; discriminate).
  destruct (failed_tick_is_made_up 300500%Z 301500%Z (fun _ => false)
              (fun _ => 300501%Z) (fun _ => 301501%Z) s0 auction2
              Hnd Hsets Hin Hst Hexp Hle) as (H1 & H2 & H3 & H4).
  split; [exact H1|]. split; [exact H2|]. split; [exact H3|exact (H4 0%nat)].
Defined.

(** In the zone of [clocks_go_back], auction 3 ends at 02:30:00. A tick a
    second before the clocks go back reads 02:59:59 and selects the
    auction, but its UPDATE throws; the next tick, a second later, reads
    02:00:00, so it does not select the auction, which stays [running]:
    the hypothesis on the wall clock is needed. *)
Lemma tick_after_clocks_go_back_skips :
  formatDateTime (js := clocks_go_back) 7199000 = 10799%Z
  /\ formatDateTime (js := clocks_go_back) 7200000 = 7200%Z
  /\ status_of 3
       (db (sweep (js := clocks_go_back) 7200000 true (fun _ => true) (fun _ => 7200001%Z)
              (sweep (js := clocks_go_back) 7199000 true (fun _ => false)
                 (fun _ => 7199001%Z) (with_db [auction3] server0))))
     = Some running.
Proof. repeat split. Qed.
